(** * tldv-mcp-server: the API client and the tool adapter

    A shallow embedding of [src/api/tldv-api.ts] (the [TldvApi] class), of the
    two schemas of [src/api/schemas.ts] the client parses with, and of the four
    tool handlers of [src/index.ts].

    JavaScript values are an inductive type, a promise is its settlement
    together with the effects observed before it settles (the HTTP calls and
    the timer waits), and the network is an oracle giving what [axios] does
    at each attempt. *)

From Stdlib Require Import ZArith String List Ascii Bool Lia.
From Stdlib Require Import DecimalString.
From Equations Require Import Equations.
From Equations.Prop Require Import Logic.
Import ListNotations.

Open Scope string_scope.
Open Scope Z_scope.

Set Warnings "-register-all".

(** ** JavaScript values *)

Module Js.

(** A JavaScript number.  [Integer z] is the number nearest to the integer
    [z] (the integer itself when it is below 2^53); a finite number that is
    no integer is given by its sign and by the text [toString] prints for it. *)
Inductive number : Type :=
| Integer (z : Z)
| NonInteger (negative : bool) (text : string)
| Infinity (negative : bool)
| NaN.

Coercion Integer : Z >-> number.

(** What a decoded response body, or an envelope, can be; a decoded JSON
    object is its list of properties in insertion order. *)
Inductive value : Type :=
| VUndefined
| VNull
| VBool (b : bool)
| VNum (n : number)
| VStr (s : string)
| VArr (items : list value)
| VObj (props : list (string * value)).

(** [if (n)] for a number: 0 and NaN are falsy. *)
Definition number_truthy (n : number) : bool :=
  match n with
  | Integer z => negb (z =? 0)
  | NonInteger _ _ | Infinity _ => true
  | NaN => false
  end.

(** [if (v)]: the falsy values are undefined, null, false, 0, NaN and the
    empty string. *)
Definition truthy (v : value) : bool :=
  match v with
  | VUndefined | VNull => false
  | VBool b => b
  | VNum n => number_truthy n
  | VStr s => negb (s =? "")%string
  | VArr _ | VObj _ => true
  end.

(** [typeof v === 'object']: null, arrays and objects. *)
Definition typeof_object (v : value) : bool :=
  match v with
  | VNull | VArr _ | VObj _ => true
  | _ => false
  end.

Fixpoint lookup (k : string) (props : list (string * value)) : option value :=
  match props with
  | [] => None
  | (k', v) :: rest => if (k' =? k)%string then Some v else lookup k rest
  end.

Definition has_key (k : string) (props : list (string * value)) : bool :=
  match lookup k props with Some _ => true | None => false end.

(** [k in v] for a [v] that is an object or an array.  The keys this program
    asks for ([data]) are no property of [Array.prototype] or
    [Object.prototype], so only an object's own properties count. *)
Definition has_property (k : string) (v : value) : bool :=
  match v with
  | VObj props => has_key k props
  | _ => false
  end.

(** [v.k] for a key [k] that no prototype defines ([message]): reading a
    property of undefined or null raises a TypeError ([None]); a missing
    property reads as undefined. *)
Definition get (v : value) (k : string) : option value :=
  match v with
  | VUndefined | VNull => None
  | VObj props =>
      Some (match lookup k props with Some x => x | None => VUndefined end)
  | _ => Some VUndefined
  end.

(** The decimal digits of an integer. *)
Definition decimal (z : Z) : string :=
  NilZero.string_of_int (Z.to_int z).

(** The number nearest to a positive integer: the integer itself below
    2^53, and above it the nearest integer with a significand of 53 bits, the
    even one of two that are as near.  (The numbers of JavaScript end below
    2^1024; the integers modelled are below that.) *)
Definition nearest_double (y : Z) : Z :=
  if y <? 2 ^ 53 then y
  else
    let e := Z.log2 y - 52 in
    let q := Z.shiftr y e in
    let r := y - Z.shiftl q e in
    let half := 2 ^ (e - 1) in
    let q' := if (half <? r) || ((r =? half) && Z.odd q) then q + 1 else q in
    Z.shiftl q' e.

Definition digit_count (x : Z) : Z := Z.of_nat (String.length (decimal x)).

(** The significands [s] of [k] digits for which [s * 10^(n-k)] is read
    back as the number [x]. *)
Definition significands (x n k : Z) : list (Z * Z) :=
  let p := 10 ^ (n - k) in
  filter (fun sn => let s := fst sn in
                    (10 ^ (k - 1) <=? s) && (s <? 10 ^ k)
                    && (nearest_double (s * p) =? x))
         [(x / p, n); (x / p + 1, n)].

(** Of two such significands the one nearer to [x], the even one when they
    are as near. *)
Definition closer (x k : Z) (a b : Z * Z) : Z * Z :=
  let da := Z.abs (fst a * 10 ^ (snd a - k) - x) in
  let db := Z.abs (fst b * 10 ^ (snd b - k) - x) in
  if da <? db then a
  else if db <? da then b
  else if Z.even (fst a) then a else b.

(** The shortest digits that are read back as [x]: [(s, n, k)] with [k] as
    small as possible, as Number::toString of the language asks. *)
Fixpoint shortest (x d : Z) (ks : list Z) : Z * Z * Z :=
  match ks with
  | [] => (x, d, d)
  | k :: rest =>
      match (significands x d k ++ significands x (d + 1) k)%list with
      | [] => shortest x d rest
      | c :: cs => let best := fold_left (closer x k) cs c in (fst best, snd best, k)
      end
  end.

Fixpoint zeros (n : nat) : string :=
  match n with
  | O => ""
  | S n' => String "0" (zeros n')
  end.

(** [toString] of a positive integer-valued number: below 2^53 its decimal
    digits; above, its shortest digits followed by zeros, and from 10^21 on
    in exponent form ([1e+21]). *)
Definition positive_toString (y : Z) : string :=
  let x := nearest_double y in
  if x <? 2 ^ 53 then decimal x
  else
    let '(s, n, k) := shortest x (digit_count x) (map Z.of_nat (seq 1 17)) in
    let ds := decimal s in
    if n <=? 21 then ds ++ zeros (Z.to_nat (n - k))
    else
      match ds with
      | String c EmptyString => String c ("e+" ++ decimal (n - 1))
      | String c more => String c ("." ++ more ++ "e+" ++ decimal (n - 1))
      | EmptyString => ds
      end.

Definition Integer_toString (z : Z) : string :=
  if z <? 0 then "-" ++ positive_toString (- z) else positive_toString z.

(** [n.toString()]. *)
Definition Number_toString (n : number) : string :=
  match n with
  | Integer z => Integer_toString z
  | NonInteger _ text => text
  | Infinity negative => if negative then "-Infinity" else "Infinity"
  | NaN => "NaN"
  end.

Definition Boolean_toString (b : bool) : string :=
  if b then "true" else "false".

(** The abstract operation ToString.  An array is joined with commas, its
    undefined and null items printing as nothing; a decoded object prints as
    [[object Object]], unless it carries a property named [toString], which
    is then no function: the conversion raises a TypeError ([None]). *)
Fixpoint ToString (v : value) : option string :=
  match v with
  | VUndefined => Some "undefined"
  | VNull => Some "null"
  | VBool b => Some (Boolean_toString b)
  | VNum n => Some (Number_toString n)
  | VStr s => Some s
  | VArr items =>
      (fix join (l : list value) : option string :=
         match l with
         | [] => Some ""
         | x :: rest =>
             let item :=
               match x with
               | VUndefined | VNull => Some ""
               | _ => ToString x
               end in
             match item, rest with
             | None, _ => None
             | Some s, [] => Some s
             | Some s, _ :: _ =>
                 match join rest with
                 | Some t => Some (s ++ "," ++ t)
                 | None => None
                 end
             end
         end) items
  | VObj props =>
      if has_key "toString" props then None else Some "[object Object]"
  end.

(** [haystack.includes(needle)]. *)
Fixpoint includes (haystack needle : string) : bool :=
  if prefix needle haystack then true
  else match haystack with
       | EmptyString => false
       | String _ rest => includes rest needle
       end.

End Js.
Import Js.

(** An integer written where an optional number is expected is that number. *)
Arguments Some {A} & a.

(** ** The schemas the client parses with (zod) *)

Module Zod.

Inductive IssueCode := invalid_type | too_small | invalid_string | invalid_enum_value.

(** One issue of a [ZodError]: the property it is about and its code. *)
Record ZodIssue := { path : string; code : IssueCode }.

(** A failed [parse] throws a [ZodError] holding every issue found. *)
Definition ZodError := list ZodIssue.

Definition is_digit (c : ascii) : bool :=
  let n := N_of_ascii c in ((48 <=? n) && (n <=? 57))%N.

Fixpoint digits (n : nat) (s : string) : option string :=
  match n with
  | O => Some s
  | S n' => match s with
            | String c rest => if is_digit c then digits n' rest else None
            | EmptyString => None
            end
  end.

Definition lit (c : ascii) (s : string) : option string :=
  match s with
  | String c' rest => if Ascii.eqb c c' then Some rest else None
  | EmptyString => None
  end.

Fixpoint skip_digits (s : string) : string :=
  match s with
  | String c rest => if is_digit c then skip_digits rest else s
  | EmptyString => s
  end.

Definition and_then {A B} (o : option A) (f : A -> option B) : option B :=
  match o with Some a => f a | None => None end.

(** [z.string().datetime()] with no option, as zod 3.22.4 tests it, the
    oldest version [package.json] admits: four digits, [-], two, [-], two,
    [T], two, [:], two, [:], two, an optional fraction and a final [Z].
    Later versions of zod test more (the ranges of month, day and time) or
    less (seconds that are left out); what is proved below of the parse
    holds whatever this test answers on a text that is not empty. *)
Definition datetime (s : string) : bool :=
  let after_seconds :=
    and_then (digits 4 s) (fun s =>
    and_then (lit "-" s) (fun s =>
    and_then (digits 2 s) (fun s =>
    and_then (lit "-" s) (fun s =>
    and_then (digits 2 s) (fun s =>
    and_then (lit "T" s) (fun s =>
    and_then (digits 2 s) (fun s =>
    and_then (lit ":" s) (fun s =>
    and_then (digits 2 s) (fun s =>
    and_then (lit ":" s) (fun s =>
    digits 2 s)))))))))) in
  match after_seconds with
  | None => false
  | Some rest =>
      let tail :=
        match lit "." rest with
        | Some frac => and_then (digits 1 frac) (fun t => Some (skip_digits t))
        | None => Some rest
        end in
      match tail with
      | Some "Z"%string => true
      | _ => false
      end
  end.

End Zod.
Import Zod.

(** *** [TldvConfigSchema] *)

Module TldvConfig.

(** The configuration handed to the constructor; [apiKey] is absent when the
    environment does not define it. *)
Record t := { apiKey : option string }.

End TldvConfig.

(** [z.object({ apiKey: z.string().min(1, 'API key is required') })]. *)
Definition TldvConfigSchema_parse (config : TldvConfig.t) : ZodError + string :=
  match TldvConfig.apiKey config with
  | None => inl [ {| path := "apiKey"; code := invalid_type |} ]
  | Some key =>
      if (1 <=? String.length key)%nat then inr key
      else inl [ {| path := "apiKey"; code := too_small |} ]
  end.

(** *** [GetMeetingsParamsSchema] *)

Record GetMeetingsParams := {
  query : option string;
  page : option number;
  limit : option number;
  from : option string;
  to : option string;
  onlyParticipated : option bool;
  meetingType : option string
}.

(** [getMeetings({})]: no property is set. *)
Definition no_params : GetMeetingsParams :=
  {| query := None; page := None; limit := None; from := None; to := None;
     onlyParticipated := None; meetingType := None |}.

(** [Number.isInteger(n)]. *)
Definition isInteger (n : number) : bool :=
  match n with
  | Integer _ => true
  | _ => false
  end.

(** [n <= 0]. *)
Definition not_positive (n : number) : bool :=
  match n with
  | Integer z => z <=? 0
  | NonInteger negative _ | Infinity negative => negative
  | NaN => false
  end.

(** [z.number().int().positive().optional()]: NaN is no number for
    [z.number()]; on any other number [.int()] and [.positive()] are both
    tested, in that order. *)
Definition check_positive (field : string) (v : option number) : ZodError :=
  match v with
  | None => []
  | Some NaN => [ {| path := field; code := invalid_type |} ]
  | Some n =>
      ((if isInteger n then [] else [ {| path := field; code := invalid_type |} ])
       ++ (if not_positive n then [ {| path := field; code := too_small |} ] else []))%list
  end.

(** [z.string().datetime().optional()]. *)
Definition check_datetime (field : string) (v : option string) : ZodError :=
  match v with
  | Some s => if datetime s then [] else [ {| path := field; code := invalid_string |} ]
  | None => []
  end.

(** [z.enum(['internal', 'external']).optional()]. *)
Definition check_meetingType (v : option string) : ZodError :=
  match v with
  | Some s =>
      if ((s =? "internal") || (s =? "external"))%string then []
      else [ {| path := "meetingType"; code := invalid_enum_value |} ]
  | None => []
  end.

(** [.optional().default(50)]: an absent limit becomes 50. *)
Definition default_limit (v : option number) : option number :=
  match v with
  | Some n => Some n
  | None => Some 50
  end.

(** [GetMeetingsParamsSchema.parse]: the issues of all properties, in the
    order of the schema; with none, the parameters with the limit defaulted. *)
Definition GetMeetingsParamsSchema_parse (params : GetMeetingsParams)
  : ZodError + GetMeetingsParams :=
  let issues :=
    (check_positive "page" (page params)
     ++ check_positive "limit" (limit params)
     ++ check_datetime "from" (from params)
     ++ check_datetime "to" (to params)
     ++ check_meetingType (meetingType params))%list in
  match issues with
  | [] =>
      inr {| query := query params;
             page := page params;
             limit := default_limit (limit params);
             from := from params;
             to := to params;
             onlyParticipated := onlyParticipated params;
             meetingType := meetingType params |}
  | _ :: _ => inl issues
  end.

(** ** [URLSearchParams] *)

Module URLSearchParams.

(** The name and value pairs, in the order they were appended. *)
Definition t := list (string * string).

Definition append (q : t) (name value : string) : t := (q ++ [(name, value)])%list.

Definition hex_digit (n : N) : ascii :=
  ascii_of_N (if (n <? 10)%N then 48 + n else 55 + n)%N.

(** The bytes the form-urlencoded serializer leaves as they are: letters,
    digits and [*], [-], [.], [_]. *)
Definition unreserved (c : ascii) : bool :=
  let n := N_of_ascii c in
  (((48 <=? n) && (n <=? 57)) || ((65 <=? n) && (n <=? 90))
   || ((97 <=? n) && (n <=? 122))
   || (n =? 42) || (n =? 45) || (n =? 46) || (n =? 95))%N.

(** A space becomes [+], any other byte [%XX]. *)
Fixpoint percent_encode (s : string) : string :=
  match s with
  | EmptyString => EmptyString
  | String c rest =>
      if unreserved c then String c (percent_encode rest)
      else if Ascii.eqb c " " then String "+" (percent_encode rest)
      else
        let n := N_of_ascii c in
        String "%" (String (hex_digit (n / 16)) (String (hex_digit (n mod 16))
                                                   (percent_encode rest)))
  end.

(** A text is held as the bytes of its UTF-8 form, a surrogate that has no
    partner as the three bytes [ED], [A0] to [BF], [80] to [BF] of its code.
    [append] takes its arguments as strings of scalar values: each such
    surrogate becomes U+FFFD, the bytes [EF BF BD].  The pairs are read by
    [toString] only, so the conversion is made there, on each name and value. *)
Fixpoint to_USVString (s : string) : string :=
  match s with
  | EmptyString => EmptyString
  | String c1 tail =>
      match tail with
      | String c2 (String c3 rest) =>
          if ((N_of_ascii c1 =? 237) && (160 <=? N_of_ascii c2)
              && (N_of_ascii c2 <=? 191))%N
          then String (ascii_of_N 239) (String (ascii_of_N 191)
                 (String (ascii_of_N 189) (to_USVString rest)))
          else String c1 (to_USVString tail)
      | _ => String c1 (to_USVString tail)
      end
  end.

(** A name or a value as the serializer writes it. *)
Definition encode (s : string) : string := percent_encode (to_USVString s).

(** [q.toString()], which a template literal calls: [name=value] joined by [&]. *)
Definition toString (q : t) : string :=
  String.concat "&" (map (fun nv => encode (fst nv) ++ "=" ++ encode (snd nv)) q).

End URLSearchParams.

(** ** Promises and the effects of an operation *)

(** What an operation does to the outside world. *)
Inductive Event :=
| HttpCall (url : string) (headers : list (string * string))
| Wait (ms : Z).

(** How the promise of an [async] function settles.  The one exception that
    is thrown outside a [try] in this program is the [ZodError] of a failed
    [parse]. *)
Inductive Settled (A : Type) :=
| Fulfilled (a : A)
| Rejected (e : ZodError).
Arguments Fulfilled {A} a.
Arguments Rejected {A} e.

(** An asynchronous computation: the events it caused, in order, and how it
    settled. *)
Record Async (A : Type) := { effects : list Event; settled : Settled A }.
Arguments effects {A} _.
Arguments settled {A} _.

Definition ret {A} (a : A) : Async A := {| effects := []; settled := Fulfilled a |}.

Definition throw {A} (e : ZodError) : Async A := {| effects := []; settled := Rejected e |}.

Definition perform (evs : list Event) : Async unit :=
  {| effects := evs; settled := Fulfilled tt |}.

Definition bind {A B} (m : Async A) (f : A -> Async B) : Async B :=
  match settled m with
  | Fulfilled a =>
      {| effects := effects m ++ effects (f a); settled := settled (f a) |}
  | Rejected e => {| effects := effects m; settled := Rejected e |}
  end.

Declare Scope async_scope.
Delimit Scope async_scope with async.
Notation "x <- m ;; k" := (bind m (fun x => k))
  (at level 100, m at next level, right associativity) : async_scope.
Notation "m ;; k" := (bind m (fun _ => k))
  (at level 100, right associativity) : async_scope.
Open Scope async_scope.

(** ** What [axios] gives back *)

Record Response := { status : Z; data : value }.

(** A value that reaches a [catch].  An [AxiosError] is an [Error] that may
    carry the response of a request the server answered with a failure
    status; it has none when no answer came.  A thrown value that is no
    [Error] has no message to read; [axios.isAxiosError] is a test of shape
    (an object whose [isAxiosError] is [true]), so such a value may pass it,
    and then its [response], when it has one, is read like that of an
    [AxiosError]. *)
Inductive Thrown :=
| AxiosError (message : string) (response : option Response)
| JsError (message : string)
| NotAnError (isAxiosError : bool) (response : option Response).

(** [await axios(url, config)] either resolves with a response or throws. *)
Inductive AxiosOutcome :=
| Resolves (response : Response)
| Throws (error : Thrown).

(** The outside world of one operation: the outcome of its attempt number
    [n], counted from 0. *)
Definition Network := nat -> AxiosOutcome.

(** ** The client: [class TldvApi] *)

Module TldvApi.

Definition BASE_URL : string := "https://pasta.tldv.io/v1alpha1".

Definition MAX_RETRIES : nat := 3.
Definition RETRY_DELAY : Z := 1000.
Definition MAX_RETRY_DELAY : Z := 2000.

Record t := {
  apiKey : string;
  baseUrl : string;
  headers : list (string * string)
}.

(** [constructor(config)]: a failed parse of the configuration is thrown. *)
Definition new (config : TldvConfig.t) : Async t :=
  match TldvConfigSchema_parse config with
  | inl zodError => throw zodError
  | inr key =>
      ret {| apiKey := key;
             baseUrl := BASE_URL;
             headers := [("x-api-key", key); ("Content-Type", "application/json")] |}
  end.

(** The message of the TypeError of [v.k] on undefined or null. *)
Definition cannot_read (v : value) (k : string) : string :=
  "Cannot read properties of "
  ++ (match v with VUndefined => "undefined" | _ => "null" end)
  ++ " (reading '" ++ k ++ "')".

(** [new Error(v)]: the message is [v] converted to a string; a conversion
    that fails throws its TypeError instead. *)
Definition new_Error (v : value) : Thrown :=
  match ToString v with
  | Some text => JsError text
  | None => JsError "Cannot convert object to primitive value"
  end.

(** The body of the [try] of [request], after [axios] settled: either the
    envelope it returns or the value it throws. *)
Definition try_block (outcome : AxiosOutcome) : Thrown + value :=
  match outcome with
  | Throws error => inl error
  | Resolves response =>
      if status response >? 200 then
        match get (data response) "message" with
        | None => inl (JsError (cannot_read (data response) "message"))
        | Some m => inl (new_Error (if truthy m then m else VStr "API request failed"))
        end
      else
        let responseData := data response in
        if truthy responseData && typeof_object responseData
           && has_property "data" responseData
        then inr responseData
        else inr (VObj [("data", responseData); ("error", VUndefined)])
  end.

(** The three reasons of [shouldRetry], as the comments of the source name them. *)

(** Network errors: [error instanceof Error && error.message.includes('Network Error')]. *)
Definition network_error (error : Thrown) : bool :=
  match error with
  | AxiosError m _ | JsError m => includes m "Network Error"
  | NotAnError _ _ => false
  end.

(** 5xx server errors:
    [axios.isAxiosError(error) && error.response && error.response.status >= 500]. *)
Definition server_error (error : Thrown) : bool :=
  match error with
  | AxiosError _ (Some r) | NotAnError true (Some r) => 500 <=? status r
  | _ => false
  end.

(** Rate limiting:
    [axios.isAxiosError(error) && error.response && error.response.status === 429]. *)
Definition rate_limited (error : Thrown) : bool :=
  match error with
  | AxiosError _ (Some r) | NotAnError true (Some r) => status r =? 429
  | _ => false
  end.

Definition shouldRetry (retryCount maxRetries : nat) (error : Thrown) : bool :=
  (retryCount <? maxRetries)%nat
  && (network_error error || server_error error || rate_limited error).

(** [Math.min(RETRY_DELAY * 2 ** retryCount, MAX_RETRY_DELAY)]. *)
Definition delay (retryCount : nat) : Z :=
  Z.min (RETRY_DELAY * 2 ^ Z.of_nat retryCount) MAX_RETRY_DELAY.

(** The envelope of a failure that is not retried. *)
Definition error_envelope (error : Thrown) : value :=
  VObj [("data", VNull);
        ("error", VStr (match error with
                        | AxiosError m _ | JsError m => m
                        | NotAnError _ _ => "Unknown error occurred"
                        end))].

Definition http (self : t) (endpoint : string) : Event :=
  HttpCall (baseUrl self ++ endpoint) (headers self).

(** [request(endpoint, options = {}, retryCount = 0, maxRetries = MAX_RETRIES)].
    Every call in the class leaves [options] empty.  The recursion is on the
    retries that are left. *)
Equations? request (self : t) (net : Network) (endpoint : string)
    (retryCount maxRetries : nat) : Async value
    by wf (maxRetries - retryCount)%nat lt :=
  request self net endpoint retryCount maxRetries
    with try_block (net retryCount) := {
    | inr envelope => perform [http self endpoint] ;; ret envelope
    | inl error with inspect (shouldRetry retryCount maxRetries error) := {
        | exist _ true _ =>
            perform [http self endpoint; Wait (delay retryCount)] ;;
            request self net endpoint (S retryCount) maxRetries
        | exist _ false _ =>
            perform [http self endpoint] ;; ret (error_envelope error) } }.
Proof.
  match goal with
  | H : shouldRetry _ _ _ = true |- _ =>
      unfold shouldRetry in H; apply andb_prop in H; destruct H as [Hlt _]
  end.
  apply Nat.ltb_lt in Hlt. lia.
Qed.

Definition getMeeting (self : t) (net : Network) (meetingId : string) : Async value :=
  request self net ("/meetings/" ++ meetingId) 0 MAX_RETRIES.

(** [if (value) queryParams.append(name, value)] for a string property. *)
Definition append_string (name : string) (v : option string) (q : URLSearchParams.t)
  : URLSearchParams.t :=
  match v with
  | Some s => if truthy (VStr s) then URLSearchParams.append q name s else q
  | None => q
  end.

(** [if (value) queryParams.append(name, value.toString())] for a number. *)
Definition append_number (name : string) (v : option number) (q : URLSearchParams.t)
  : URLSearchParams.t :=
  match v with
  | Some n => if truthy (VNum n) then URLSearchParams.append q name (Number_toString n) else q
  | None => q
  end.

(** [if (value !== undefined) queryParams.append(name, value.toString())]. *)
Definition append_defined (name : string) (v : option bool) (q : URLSearchParams.t)
  : URLSearchParams.t :=
  match v with
  | Some b => URLSearchParams.append q name (Boolean_toString b)
  | None => q
  end.

(** The [queryParams] that [getMeetings] builds from the validated parameters. *)
Definition queryParams (validatedParams : GetMeetingsParams) : URLSearchParams.t :=
  let q := [] in
  let q := append_string "query" (query validatedParams) q in
  let q := append_number "page" (page validatedParams) q in
  let q := append_number "limit" (limit validatedParams) q in
  let q := append_string "from" (from validatedParams) q in
  let q := append_string "to" (to validatedParams) q in
  let q := append_defined "onlyParticipated" (onlyParticipated validatedParams) q in
  let q := append_string "meetingType" (meetingType validatedParams) q in
  q.

(** The parse is outside any [try]: its [ZodError] rejects the promise. *)
Definition getMeetings (self : t) (net : Network) (params : GetMeetingsParams)
  : Async value :=
  match GetMeetingsParamsSchema_parse params with
  | inl zodError => throw zodError
  | inr validatedParams =>
      request self net
        ("/meetings?" ++ URLSearchParams.toString (queryParams validatedParams))
        0 MAX_RETRIES
  end.

Definition getTranscript (self : t) (net : Network) (meetingId : string) : Async value :=
  request self net ("/meetings/" ++ meetingId ++ "/transcript") 0 MAX_RETRIES.

Definition getHighlights (self : t) (net : Network) (meetingId : string) : Async value :=
  request self net ("/meetings/" ++ meetingId ++ "/highlights") 0 MAX_RETRIES.

Definition healthCheck (self : t) (net : Network) : Async value :=
  request self net "/health" 0 MAX_RETRIES.

End TldvApi.

(** ** The tool adapter: the handlers registered in [main] *)

Module Server.

(** One item of a tool result, and the result. *)
Record Content := { type : string; text : string }.
Record ToolResult := { content : list Content }.

Section Handlers.

(** [JSON.stringify], the serializer of the runtime. *)
Variable JSON_stringify : value -> string.

Variable tldvApi : TldvApi.t.
Variable net : Network.

(** [{ content: [{ type: "text", text: JSON.stringify(v) }] }]. *)
Definition text_content (v : value) : ToolResult :=
  {| content := [ {| type := "text"; text := JSON_stringify v |} ] |}.

Definition get_meeting_metadata (id : string) : Async ToolResult :=
  meeting <- TldvApi.getMeeting tldvApi net id ;;
  ret (text_content meeting).

Definition get_transcript (meetingId : string) : Async ToolResult :=
  transcript <- TldvApi.getTranscript tldvApi net meetingId ;;
  ret (text_content transcript).

Definition list_meetings (input : GetMeetingsParams) : Async ToolResult :=
  meetings <- TldvApi.getMeetings tldvApi net input ;;
  ret (text_content meetings).

Definition get_highlights (meetingId : string) : Async ToolResult :=
  highlights <- TldvApi.getHighlights tldvApi net meetingId ;;
  ret (text_content highlights).

End Handlers.

End Server.

(** ** Observing an operation *)

(** The five operations of the client, as one type, and running one. *)
Inductive Operation :=
| GetMeeting (meetingId : string)
| GetMeetings (params : GetMeetingsParams)
| GetTranscript (meetingId : string)
| GetHighlights (meetingId : string)
| HealthCheck.

Definition run (self : TldvApi.t) (net : Network) (op : Operation) : Async value :=
  match op with
  | GetMeeting meetingId => TldvApi.getMeeting self net meetingId
  | GetMeetings params => TldvApi.getMeetings self net params
  | GetTranscript meetingId => TldvApi.getTranscript self net meetingId
  | GetHighlights meetingId => TldvApi.getHighlights self net meetingId
  | HealthCheck => TldvApi.healthCheck self net
  end.

(** The endpoint an operation asks [request] for, when its parameters parse. *)
Definition endpoint_of (op : Operation) : ZodError + string :=
  match op with
  | GetMeeting meetingId => inr ("/meetings/" ++ meetingId)
  | GetMeetings params =>
      match GetMeetingsParamsSchema_parse params with
      | inl zodError => inl zodError
      | inr validatedParams =>
          inr ("/meetings?" ++ URLSearchParams.toString (TldvApi.queryParams validatedParams))
      end
  | GetTranscript meetingId => inr ("/meetings/" ++ meetingId ++ "/transcript")
  | GetHighlights meetingId => inr ("/meetings/" ++ meetingId ++ "/highlights")
  | HealthCheck => inr "/health"
  end.

(** The tool calls the adapter serves, the handler of each and the client
    operation it stands for. *)
Inductive ToolCall :=
| call_get_meeting_metadata (id : string)
| call_get_transcript (meetingId : string)
| call_list_meetings (input : GetMeetingsParams)
| call_get_highlights (meetingId : string).

Definition handle (JSON_stringify : value -> string) (tldvApi : TldvApi.t)
    (net : Network) (call : ToolCall) : Async Server.ToolResult :=
  match call with
  | call_get_meeting_metadata id => Server.get_meeting_metadata JSON_stringify tldvApi net id
  | call_get_transcript meetingId => Server.get_transcript JSON_stringify tldvApi net meetingId
  | call_list_meetings input => Server.list_meetings JSON_stringify tldvApi net input
  | call_get_highlights meetingId => Server.get_highlights JSON_stringify tldvApi net meetingId
  end.

Definition delegate (call : ToolCall) : Operation :=
  match call with
  | call_get_meeting_metadata id => GetMeeting id
  | call_get_transcript meetingId => GetTranscript meetingId
  | call_list_meetings input => GetMeetings input
  | call_get_highlights meetingId => GetHighlights meetingId
  end.

Definition map_settled {A B} (f : A -> B) (s : Settled A) : Settled B :=
  match s with
  | Fulfilled a => Fulfilled (f a)
  | Rejected e => Rejected e
  end.

(** The number of HTTP calls among some events, and the waits among them. *)
Fixpoint http_calls (evs : list Event) : nat :=
  match evs with
  | [] => 0
  | HttpCall _ _ :: rest => S (http_calls rest)
  | Wait _ :: rest => http_calls rest
  end.

Fixpoint waits (evs : list Event) : list Z :=
  match evs with
  | [] => []
  | HttpCall _ _ :: rest => waits rest
  | Wait ms :: rest => ms :: waits rest
  end.

(** Attempt [k] failed and was retried. *)
Definition retried (net : Network) (k : nat) : bool :=
  match TldvApi.try_block (net k) with
  | inl error => TldvApi.shouldRetry k TldvApi.MAX_RETRIES error
  | inr _ => false
  end.

(** Every attempt before attempt [n] failed and was retried: the operation
    gets to attempt [n]. *)
Definition retried_before (net : Network) (n : nat) : bool :=
  forallb (retried net) (seq 0 n).

(** The events of the attempts before attempt [n], all of them retried. *)
Definition backoff (self : TldvApi.t) (endpoint : string) (n : nat) : list Event :=
  flat_map (fun k => [TldvApi.http self endpoint; Wait (TldvApi.delay k)]) (seq 0 n).

(** The text in the [error] property of a returned envelope. *)
Definition error_text (s : Settled value) : option string :=
  match s with
  | Fulfilled envelope =>
      match get envelope "error" with
      | Some (VStr text) => Some text
      | _ => None
      end
  | Rejected _ => None
  end.




(** ** Sample inputs *)

Definition sample_api : TldvApi.t :=
  {| TldvApi.apiKey := "key";
     TldvApi.baseUrl := TldvApi.BASE_URL;
     TldvApi.headers := [("x-api-key", "key"); ("Content-Type", "application/json")] |}.

(** A network that answers every attempt the same way. *)
Definition always (outcome : AxiosOutcome) : Network := fun _ => outcome.

(** A network that answers the attempts with the outcomes of a list, in
    order, and then with [last]. *)
Definition answers (outcomes : list AxiosOutcome) (last : AxiosOutcome) : Network :=
  fun n => nth n outcomes last.

(** How [axios] reports a response whose status it refuses. *)
Definition status_failure (code : Z) (body : value) : AxiosOutcome :=
  Throws (AxiosError ("Request failed with status code " ++ Number_toString code)
            (Some {| status := code; data := body |})).

Definition page_minus_one : GetMeetingsParams :=
  {| query := None; page := Some (-1); limit := None; from := None; to := None;
     onlyParticipated := None; meetingType := None |}.

Definition page_2_limit_10 : GetMeetingsParams :=
  {| query := None; page := Some 2; limit := Some 10; from := None; to := None;
     onlyParticipated := None; meetingType := None |}.


(** The time an operation spends waiting, in milliseconds. *)
Definition total_wait (evs : list Event) : Z := fold_right Z.add 0 (waits evs).

(** Every character of a string passes a test. *)
Fixpoint all_chars (p : ascii -> bool) (s : string) : bool :=
  match s with
  | EmptyString => true
  | String c rest => p c && all_chars p rest
  end.

(** The characters a serialized name or value is made of: the ones left as
    they are, [+] and [%]. *)
Definition query_safe (c : ascii) : bool :=
  URLSearchParams.unreserved c || Ascii.eqb c "+" || Ascii.eqb c "%".


(** An optional number is absent or is an integer above 0. *)
Definition positive_integer (v : option number) : bool :=
  match v with
  | Some (Integer z) => 0 <? z
  | Some _ => false
  | None => true
  end.

(** The parameters of [getMeetings] hold nothing the schema refuses. *)
Definition well_formed (params : GetMeetingsParams) : bool :=
  positive_integer (page params)
  && positive_integer (limit params)
  && match from params with Some s => datetime s | None => true end
  && match to params with Some s => datetime s | None => true end
  && match meetingType params with
     | Some s => ((s =? "internal") || (s =? "external"))%string
     | None => true
     end.

(** The parameters as a successful parse returns them. *)
Definition with_default_limit (params : GetMeetingsParams) : GetMeetingsParams :=
  {| query := query params;
     page := page params;
     limit := default_limit (limit params);
     from := from params;
     to := to params;
     onlyParticipated := onlyParticipated params;
     meetingType := meetingType params |}.


(** How often a character occurs in a string. *)
Fixpoint count_char (c : ascii) (s : string) : nat :=
  match s with
  | EmptyString => 0
  | String c' rest => ((if Ascii.eqb c c' then 1 else 0) + count_char c rest)%nat
  end.

(** The texts made of the one code unit D800, and DFFF: surrogates with no
    partner. *)
Definition lone_surrogate_d800 : string :=
  String (ascii_of_N 237) (String (ascii_of_N 160) (String (ascii_of_N 128) "")).

Definition lone_surrogate_dfff : string :=
  String (ascii_of_N 237) (String (ascii_of_N 191) (String (ascii_of_N 191) "")).

(** ** Properties *)

Import TldvApi.

(** *** [request], one attempt at a time *)

Lemma request_eq self net endpoint retryCount maxRetries :
  request self net endpoint retryCount maxRetries =
  match try_block (net retryCount) with
  | inr envelope =>
      {| effects := [http self endpoint]; settled := Fulfilled envelope |}
  | inl error =>
      if shouldRetry retryCount maxRetries error then
        let next := request self net endpoint (S retryCount) maxRetries in
        {| effects := http self endpoint :: Wait (delay retryCount) :: effects next;
           settled := settled next |}
      else
        {| effects := [http self endpoint];
           settled := Fulfilled (error_envelope error) |}
  end.
Proof.
  funelim (request self net endpoint retryCount maxRetries);
    match goal with H : try_block _ = _ |- _ => rewrite H end;
    try match goal with H : shouldRetry _ _ _ = _ |- _ => rewrite H end;
    reflexivity.
Qed.

Lemma request_returns self net endpoint retryCount maxRetries envelope :
  try_block (net retryCount) = inr envelope ->
  request self net endpoint retryCount maxRetries =
  {| effects := [http self endpoint]; settled := Fulfilled envelope |}.
Proof. intros H. rewrite request_eq, H. reflexivity. Qed.

Lemma request_gives_up self net endpoint retryCount maxRetries error :
  try_block (net retryCount) = inl error ->
  shouldRetry retryCount maxRetries error = false ->
  request self net endpoint retryCount maxRetries =
  {| effects := [http self endpoint]; settled := Fulfilled (error_envelope error) |}.
Proof. intros H Hno. rewrite request_eq, H, Hno. reflexivity. Qed.

Lemma request_retries self net endpoint retryCount maxRetries error :
  try_block (net retryCount) = inl error ->
  shouldRetry retryCount maxRetries error = true ->
  request self net endpoint retryCount maxRetries =
  (perform [http self endpoint; Wait (delay retryCount)] ;;
   request self net endpoint (S retryCount) maxRetries).
Proof. intros H Hyes. rewrite request_eq, H, Hyes. reflexivity. Qed.

(** *** The operations and [request] *)

Lemma run_request self net op endpoint :
  endpoint_of op = inr endpoint ->
  run self net op = request self net endpoint 0 MAX_RETRIES.
Proof.
  destruct op as [id | params | id | id | ]; cbn; intros H;
    try (injection H as <-; reflexivity).
  unfold getMeetings.
  destruct (GetMeetingsParamsSchema_parse params); [discriminate |].
  injection H as <-. reflexivity.
Qed.

Lemma run_rejected self net op issues :
  endpoint_of op = inl issues ->
  run self net op = throw issues.
Proof.
  destruct op as [id | params | id | id | ]; cbn; intros H; try discriminate.
  unfold getMeetings.
  destruct (GetMeetingsParamsSchema_parse params); [| discriminate].
  injection H as <-. reflexivity.
Qed.

(** *** Counting the events *)

Lemma http_calls_app evs evs' :
  http_calls (evs ++ evs') = (http_calls evs + http_calls evs')%nat.
Proof.
  induction evs as [| [url hs | ms] evs IH]; cbn; [reflexivity | |]; rewrite IH; reflexivity.
Qed.

Lemma waits_app evs evs' : waits (evs ++ evs') = (waits evs ++ waits evs')%list.
Proof.
  induction evs as [| [url hs | ms] evs IH]; cbn; [reflexivity | |]; rewrite IH; reflexivity.
Qed.

Lemma backoff_S self endpoint n :
  backoff self endpoint (S n) =
  (backoff self endpoint n ++ [http self endpoint; Wait (delay n)])%list.
Proof.
  unfold backoff. rewrite seq_S, flat_map_app. cbn. reflexivity.
Qed.

Lemma http_calls_backoff self endpoint n : http_calls (backoff self endpoint n) = n.
Proof.
  induction n as [| n IH]; [reflexivity |].
  rewrite backoff_S, http_calls_app, IH. cbn. lia.
Qed.

Lemma waits_backoff self endpoint n :
  waits (backoff self endpoint n) = map delay (seq 0 n).
Proof.
  induction n as [| n IH]; [reflexivity |].
  rewrite backoff_S, waits_app, IH, seq_S, map_app. reflexivity.
Qed.

Lemma http_calls_request self net endpoint retryCount maxRetries :
  (1 <= http_calls (effects (request self net endpoint retryCount maxRetries)))%nat.
Proof.
  rewrite request_eq.
  destruct (try_block (net retryCount)) as [error | envelope]; cbn; [| lia].
  destruct (shouldRetry retryCount maxRetries error); cbn; lia.
Qed.

(** *** Getting to attempt [n] *)

Lemma retried_before_S net n :
  retried_before net (S n) = retried_before net n && retried net n.
Proof.
  unfold retried_before. rewrite seq_S, forallb_app. cbn.
  rewrite andb_true_r. reflexivity.
Qed.

(** An operation whose first [n] attempts were retried goes on as [request]
    does from attempt [n]. *)
Lemma request_resume self net endpoint n :
  retried_before net n = true ->
  request self net endpoint 0 MAX_RETRIES =
  {| effects := backoff self endpoint n
                ++ effects (request self net endpoint n MAX_RETRIES);
     settled := settled (request self net endpoint n MAX_RETRIES) |}.
Proof.
  induction n as [| n IH]; intros Hbefore.
  - cbn. destruct (request self net endpoint 0 MAX_RETRIES); reflexivity.
  - rewrite retried_before_S in Hbefore.
    apply andb_prop in Hbefore. destruct Hbefore as [Hbefore Hn].
    rewrite (IH Hbefore). unfold retried in Hn.
    destruct (try_block (net n)) as [error | envelope] eqn:Htry; [| discriminate].
    rewrite (request_retries _ _ _ _ _ _ Htry Hn).
    rewrite backoff_S, <- app_assoc. reflexivity.
Qed.

Lemma retried_before_bound net n : retried_before net n = true -> (n <= MAX_RETRIES)%nat.
Proof.
  destruct n as [| n]; [lia |].
  rewrite retried_before_S. intros H.
  apply andb_prop in H. destruct H as [_ H]. unfold retried in H.
  destruct (try_block (net n)); [| discriminate].
  unfold shouldRetry in H. apply andb_prop in H. destruct H as [H _].
  apply Nat.ltb_lt in H. lia.
Qed.

Lemma run_at self net op endpoint n :
  endpoint_of op = inr endpoint ->
  retried_before net n = true ->
  run self net op =
  {| effects := backoff self endpoint n
                ++ effects (request self net endpoint n MAX_RETRIES);
     settled := settled (request self net endpoint n MAX_RETRIES) |}.
Proof.
  intros Hop Hbefore. rewrite (run_request _ _ _ _ Hop).
  apply request_resume, Hbefore.
Qed.

Lemma run_returns self net op endpoint n envelope :
  endpoint_of op = inr endpoint ->
  retried_before net n = true ->
  try_block (net n) = inr envelope ->
  run self net op =
  {| effects := backoff self endpoint n ++ [http self endpoint];
     settled := Fulfilled envelope |}.
Proof.
  intros Hop Hbefore Htry.
  rewrite (run_at _ _ _ _ _ Hop Hbefore), (request_returns _ _ _ _ _ _ Htry).
  reflexivity.
Qed.

Lemma run_gives_up self net op endpoint n error :
  endpoint_of op = inr endpoint ->
  retried_before net n = true ->
  try_block (net n) = inl error ->
  shouldRetry n MAX_RETRIES error = false ->
  run self net op =
  {| effects := backoff self endpoint n ++ [http self endpoint];
     settled := Fulfilled (error_envelope error) |}.
Proof.
  intros Hop Hbefore Htry Hno.
  rewrite (run_at _ _ _ _ _ Hop Hbefore), (request_gives_up _ _ _ _ _ _ Htry Hno).
  reflexivity.
Qed.

(** Whether one more HTTP call follows a failed attempt is what
    [shouldRetry] answers. *)
Lemma retry_observed self net op endpoint n error :
  endpoint_of op = inr endpoint ->
  retried_before net n = true ->
  try_block (net n) = inl error ->
  ((S n < http_calls (effects (run self net op)))%nat <->
   shouldRetry n MAX_RETRIES error = true)
  /\ (shouldRetry n MAX_RETRIES error = false ->
      run self net op =
      {| effects := backoff self endpoint n ++ [http self endpoint];
         settled := Fulfilled (error_envelope error) |}).
Proof.
  intros Hop Hbefore Htry.
  destruct (shouldRetry n MAX_RETRIES error) eqn:Hretry.
  - split; [| discriminate].
    split; [reflexivity | intros _].
    rewrite (run_at _ _ _ _ _ Hop Hbefore). cbn [effects].
    rewrite (request_retries _ _ _ _ _ _ Htry Hretry). cbn.
    rewrite http_calls_app, http_calls_backoff. cbn.
    pose proof (http_calls_request self net endpoint (S n) MAX_RETRIES). lia.
  - rewrite (run_gives_up _ _ _ _ _ _ Hop Hbefore Htry Hretry). cbn [effects].
    rewrite http_calls_app, http_calls_backoff. cbn.
    split; [| reflexivity].
    split; [lia | discriminate].
Qed.

(** *** The retry decision *)

(** C3.  [healthCheck] when the connection is refused, as the HTTP adapter of
    axios reports it under Node: an [AxiosError] that has the message of the
    socket error and no response.  The failure is a network error and the
    attempt count is 0, below the ceiling; yet the message does not contain
    "Network Error", so nothing is retried: the error envelope comes back
    after one call and no wait.  The same test of the message retries what is
    no network error: a response that axios resolves with status 201 and a
    body whose [message] is "Network Error" is asked for again after 1000
    milliseconds. *)
Theorem connection_refused_not_retried self :
  run self (always (Throws (AxiosError "connect ECONNREFUSED 127.0.0.1:443" None)))
    HealthCheck
  = {| effects := [http self "/health"];
       settled :=
         Fulfilled (VObj [("data", VNull);
                          ("error", VStr "connect ECONNREFUSED 127.0.0.1:443")]) |}
  /\ effects (run self
                (answers [Resolves {| status := 201;
                                      data := VObj [("message", VStr "Network Error")] |}]
                   (Resolves {| status := 200; data := VStr "ok" |}))
                HealthCheck)
     = [http self "/health"; Wait 1000; http self "/health"].
Proof. split; reflexivity. Qed.

(** A 503 on every attempt: three retries, then the error envelope. *)
Example retries_exhausted :
  run sample_api (always (status_failure 503 VNull)) HealthCheck =
  {| effects := [http sample_api "/health"; Wait 1000;
                 http sample_api "/health"; Wait 2000;
                 http sample_api "/health"; Wait 2000;
                 http sample_api "/health"];
     settled :=
       Fulfilled (VObj [("data", VNull);
                        ("error", VStr "Request failed with status code 503")]) |}.
Proof. reflexivity. Qed.

(** *** The wait before a retry *)

Lemma delay_first : delay 0 = 1000.
Proof. reflexivity. Qed.

Lemma delay_capped n : (1 <= n)%nat -> delay n = 2000.
Proof.
  intros Hn. unfold delay, RETRY_DELAY, MAX_RETRY_DELAY.
  assert (2 ^ 1 <= 2 ^ Z.of_nat n) by (apply Z.pow_le_mono_r; lia).
  change (2 ^ 1) with 2 in *. lia.
Qed.

(** C5.  When attempt [n] of an operation fails and is retried, [request]
    waits [min(1000 * 2^n, 2000)] milliseconds, which is 1000 for [n = 0]
    and 2000 for every [n >= 1], and then calls itself with attempt count
    [n + 1]; that wait is wait number [n] of the operation. *)
Theorem retry_waits_capped_delay self net op endpoint n error :
  endpoint_of op = inr endpoint ->
  retried_before net n = true ->
  try_block (net n) = inl error ->
  shouldRetry n MAX_RETRIES error = true ->
  request self net endpoint n MAX_RETRIES =
    (perform [http self endpoint; Wait (delay n)] ;;
     request self net endpoint (S n) MAX_RETRIES)
  /\ nth_error (waits (effects (run self net op))) n = Some (delay n)
  /\ delay n = Z.min (1000 * 2 ^ Z.of_nat n) 2000
  /\ (n = 0%nat -> delay n = 1000)
  /\ ((1 <= n)%nat -> delay n = 2000).
Proof.
  intros Hop Hbefore Htry Hretry.
  split; [apply (request_retries _ _ _ _ _ _ Htry Hretry) |].
  split.
  - rewrite (run_at _ _ _ _ _ Hop Hbefore). cbn [effects].
    rewrite (request_retries _ _ _ _ _ _ Htry Hretry). cbn.
    rewrite waits_app, waits_backoff. cbn.
    rewrite nth_error_app2; rewrite length_map, length_seq; [| lia].
    rewrite Nat.sub_diag. reflexivity.
  - split; [reflexivity |].
    split; [intros ->; apply delay_first | apply delay_capped].
Qed.

(** A 503 on the first two attempts and then a plain body: the waits are
    1000 and 2000 milliseconds. *)
Lemma retry_waits_capped_delay_witness :
  nth_error
    (waits (effects (run sample_api
                       (answers [status_failure 503 VNull; status_failure 503 VNull]
                          (Resolves {| status := 200; data := VStr "ok" |}))
                       HealthCheck))) 1
  = Some 2000.
Proof.
  apply (proj1 (proj2 (retry_waits_capped_delay sample_api
                  (answers [status_failure 503 VNull; status_failure 503 VNull]
                     (Resolves {| status := 200; data := VStr "ok" |}))
                  HealthCheck "/health" 1
                  (AxiosError "Request failed with status code 503"
                     (Some {| status := 503; data := VNull |}))
                  eq_refl eq_refl eq_refl eq_refl))).
Defined.

(** *** A response that is no failure *)

Lemma has_property_object k v :
  has_property k v = true <-> exists props, v = VObj props /\ has_key k props = true.
Proof.
  split.
  - destruct v; cbn; try discriminate. intros H. eexists. split; [reflexivity | exact H].
  - intros [props [-> H]]. exact H.
Qed.

Lemma try_block_success r :
  status r <= 200 ->
  try_block (Resolves r) =
  inr (if has_property "data" (data r) then data r
       else VObj [("data", data r); ("error", VUndefined)]).
Proof.
  intros Hstatus. unfold try_block.
  destruct (Z.gtb_spec (status r) 200) as [Hgt | _]; [lia |].
  destruct (data r) as [| | b | n | s | items | props]; cbn; try reflexivity.
  - destruct b; reflexivity.
  - destruct (number_truthy n); reflexivity.
  - destruct (negb (s =? "")%string); reflexivity.
  - destruct (has_key "data" props); reflexivity.
Qed.

(** C4.  Take any operation whose parameters parse and any attempt [n] it
    gets to that [axios] resolves with a status of at most 200.  A body that
    is an object with a [data] property is returned as it is; any other body
    [Y] is returned as [{data: Y, error: undefined}]. *)
Theorem success_passes_or_wraps self net op endpoint n r :
  endpoint_of op = inr endpoint ->
  retried_before net n = true ->
  net n = Resolves r ->
  status r <= 200 ->
  ((exists props, data r = VObj props /\ has_key "data" props = true) ->
   settled (run self net op) = Fulfilled (data r))
  /\ (~ (exists props, data r = VObj props /\ has_key "data" props = true) ->
      settled (run self net op) =
      Fulfilled (VObj [("data", data r); ("error", VUndefined)])
      /\ error_text (settled (run self net op)) = None).
Proof.
  intros Hop Hbefore Hnet Hstatus.
  pose proof (try_block_success r Hstatus) as Htry. rewrite <- Hnet in Htry.
  rewrite (run_returns _ _ _ _ _ _ Hop Hbefore Htry). cbn [settled].
  rewrite <- has_property_object.
  destruct (has_property "data" (data r)).
  - split; [reflexivity | intros H; exfalso; apply H; reflexivity].
  - split; [discriminate | intros _; split; reflexivity].
Qed.

(** A list of meetings that comes without an envelope is wrapped. *)
Lemma success_passes_or_wraps_witness :
  settled (run sample_api
             (always (Resolves {| status := 200; data := VArr [VStr "m1"] |}))
             (GetMeeting "m1"))
  = Fulfilled (VObj [("data", VArr [VStr "m1"]); ("error", VUndefined)]).
Proof.
  apply (proj2 (success_passes_or_wraps sample_api
                  (always (Resolves {| status := 200; data := VArr [VStr "m1"] |}))
                  (GetMeeting "m1") "/meetings/m1" 0
                  {| status := 200; data := VArr [VStr "m1"] |}
                  eq_refl eq_refl eq_refl ltac:(discriminate))).
  intros [props [H _]]. discriminate H.
Defined.

(** C9.  With a status of at most 200, a body that is null or is no object
    comes back as [{data: body, error: undefined}]; for a null body the
    envelope has a null [data], an undefined [error] and so no error text. *)
Theorem success_wraps_bare_body self net op endpoint n r :
  endpoint_of op = inr endpoint ->
  retried_before net n = true ->
  net n = Resolves r ->
  status r <= 200 ->
  data r = VNull \/ typeof_object (data r) = false ->
  settled (run self net op) =
    Fulfilled (VObj [("data", data r); ("error", VUndefined)])
  /\ (data r = VNull ->
      exists envelope,
        settled (run self net op) = Fulfilled envelope
        /\ get envelope "data" = Some VNull
        /\ get envelope "error" = Some VUndefined
        /\ error_text (settled (run self net op)) = None).
Proof.
  intros Hop Hbefore Hnet Hstatus Hbody.
  pose proof (try_block_success r Hstatus) as Htry. rewrite <- Hnet in Htry.
  rewrite (run_returns _ _ _ _ _ _ Hop Hbefore Htry). cbn [settled].
  assert (Hno : has_property "data" (data r) = false).
  { destruct Hbody as [-> | Hbody]; [reflexivity |].
    destruct (data r); try reflexivity; discriminate Hbody. }
  rewrite Hno. split; [reflexivity |].
  intros Hnull. eexists. split; [reflexivity |].
  rewrite Hnull. cbn. repeat split.
Qed.

(** A 200 with a null body after one retried 503. *)
Lemma success_wraps_bare_body_witness :
  settled (run sample_api
             (answers [status_failure 503 VNull]
                (Resolves {| status := 200; data := VNull |}))
             (GetTranscript "m1"))
  = Fulfilled (VObj [("data", VNull); ("error", VUndefined)]).
Proof.
  apply (proj1 (success_wraps_bare_body sample_api
                  (answers [status_failure 503 VNull]
                     (Resolves {| status := 200; data := VNull |}))
                  (GetTranscript "m1") "/meetings/m1/transcript" 1
                  {| status := 200; data := VNull |}
                  eq_refl eq_refl eq_refl ltac:(discriminate) (or_introl eq_refl))).
Defined.

(** *** A response with a status above 200 *)

Lemma try_block_failure_status r m :
  status r > 200 ->
  get (data r) "message" = Some m ->
  try_block (Resolves r) =
  inl (new_Error (if truthy m then m else VStr "API request failed")).
Proof.
  intros Hstatus Hget. unfold try_block.
  destruct (Z.gtb_spec (status r) 200) as [_ | Hle]; [| lia].
  rewrite Hget. reflexivity.
Qed.

(** C2, as the code has it.  Take any operation whose parameters parse and
    any attempt [n] it gets to that [axios] resolves with a status above 200.
    If the body has a [message] that is a non-empty string [M], the attempt
    fails with the text [M], and unless [M] contains "Network Error" the
    operation returns [{data: null, error: M}] at once.  If the body is not
    null and its [message] is missing or falsy, the operation returns
    [{data: null, error: "API request failed"}] at once. *)
Theorem failure_status_error_text self net op endpoint n r :
  endpoint_of op = inr endpoint ->
  retried_before net n = true ->
  net n = Resolves r ->
  status r > 200 ->
  (forall M,
      get (data r) "message" = Some (VStr M) ->
      truthy (VStr M) = true ->
      try_block (net n) = inl (JsError M)
      /\ (includes M "Network Error" = false ->
          run self net op =
          {| effects := backoff self endpoint n ++ [http self endpoint];
             settled := Fulfilled (VObj [("data", VNull); ("error", VStr M)]) |}))
  /\ (forall m,
         get (data r) "message" = Some m ->
         truthy m = false ->
         run self net op =
         {| effects := backoff self endpoint n ++ [http self endpoint];
            settled :=
              Fulfilled (VObj [("data", VNull);
                               ("error", VStr "API request failed")]) |}).
Proof.
  intros Hop Hbefore Hnet Hstatus. split.
  - intros M Hget Htruthy.
    pose proof (try_block_failure_status r _ Hstatus Hget) as Htry.
    rewrite Htruthy in Htry. rewrite <- Hnet in Htry.
    split; [exact Htry |].
    intros Hplain.
    apply (run_gives_up _ _ _ _ _ _ Hop Hbefore Htry).
    unfold shouldRetry. cbn. rewrite Hplain. cbn. apply andb_false_r.
  - intros m Hget Hfalsy.
    pose proof (try_block_failure_status r _ Hstatus Hget) as Htry.
    rewrite Hfalsy in Htry. rewrite <- Hnet in Htry.
    apply (run_gives_up _ _ _ _ _ _ Hop Hbefore Htry).
    unfold shouldRetry. cbn. apply andb_false_r.
Qed.

(** A 201 whose body says why. *)
Lemma failure_status_error_text_witness :
  run sample_api
    (always (Resolves {| status := 201;
                         data := VObj [("message", VStr "Meeting not found")] |}))
    (GetHighlights "m1")
  = {| effects := [http sample_api "/meetings/m1/highlights"];
       settled :=
         Fulfilled (VObj [("data", VNull); ("error", VStr "Meeting not found")]) |}.
Proof.
  apply (proj2 (proj1 (failure_status_error_text sample_api
                  (always (Resolves {| status := 201;
                                       data := VObj [("message", VStr "Meeting not found")] |}))
                  (GetHighlights "m1") "/meetings/m1/highlights" 0
                  {| status := 201;
                     data := VObj [("message", VStr "Meeting not found")] |}
                  eq_refl eq_refl eq_refl eq_refl)
                  "Meeting not found" eq_refl eq_refl)).
  reflexivity.
Defined.

(** C2 as it is written fails: a 201 whose body is [{message: ""}] has a
    [message] with value [M = ""], and the error text is the generic one. *)
Lemma failure_status_error_text_counterexample :
  ~ (forall self net op endpoint n r M,
        endpoint_of op = inr endpoint ->
        retried_before net n = true ->
        net n = Resolves r ->
        status r > 200 ->
        (exists props, data r = VObj props
                       /\ lookup "message" props = Some (VStr M)) ->
        error_text (settled (run self net op)) = Some M).
Proof.
  intros H.
  specialize (H sample_api
                (always (Resolves {| status := 201;
                                     data := VObj [("message", VStr "")] |}))
                HealthCheck "/health" 0%nat
                {| status := 201; data := VObj [("message", VStr "")] |} ""
                eq_refl eq_refl eq_refl eq_refl).
  assert (Hsome : error_text
                    (settled (run sample_api
                                (always (Resolves {| status := 201;
                                                     data := VObj [("message", VStr "")] |}))
                                HealthCheck))
                  = Some "API request failed") by reflexivity.
  rewrite Hsome in H.
  specialize (H (ex_intro _ [("message", VStr "")] (conj eq_refl eq_refl))).
  discriminate H.
Qed.

(** A [message] that contains "Network Error" makes the attempt count as a
    network error: it is retried. *)
Example failure_status_message_retried :
  effects (run sample_api
             (answers [Resolves {| status := 201;
                                   data := VObj [("message", VStr "Network Error")] |}]
                (Resolves {| status := 200; data := VStr "ok" |}))
             HealthCheck)
  = [http sample_api "/health"; Wait 1000; http sample_api "/health"].
Proof. reflexivity. Qed.

(** *** Parameters that do not parse *)

(** [request] always returns an envelope: its promise is never rejected. *)
Lemma request_fulfilled self net endpoint retryCount maxRetries :
  exists envelope,
    settled (request self net endpoint retryCount maxRetries) = Fulfilled envelope.
Proof.
  funelim (request self net endpoint retryCount maxRetries).
  - eexists. reflexivity.
  - match goal with IH : unit -> exists _, _ |- _ => destruct (IH tt) as [envelope IH'] end.
    exists envelope. cbn. exact IH'.
  - eexists. reflexivity.
Qed.

(** C1.  [getMeetings({page: -1})]: the parse fails outside any [try], so
    the promise is rejected with the [ZodError]; no envelope is returned.
    No HTTP call is made and nothing is waited for. *)
Theorem getMeetings_negative_page_rejects self net :
  getMeetings self net page_minus_one =
  {| effects := [];
     settled := Rejected [ {| path := "page"; code := too_small |} ] |}.
Proof. reflexivity. Qed.

(** *** Constructing the client *)

(** C6.  Constructing the client from a configuration whose [apiKey] is
    absent or empty throws, and constructing it from one whose [apiKey] is a
    non-empty string gives the client with that key; neither makes any HTTP
    call. *)
Theorem new_requires_credential config :
  (TldvConfig.apiKey config = None \/ TldvConfig.apiKey config = Some "" ->
   exists zodError,
     TldvApi.new config = {| effects := []; settled := Rejected zodError |})
  /\ (forall key,
         TldvConfig.apiKey config = Some key ->
         key <> "" ->
         TldvApi.new config =
         {| effects := [];
            settled :=
              Fulfilled {| apiKey := key;
                           baseUrl := BASE_URL;
                           headers := [("x-api-key", key);
                                       ("Content-Type", "application/json")] |} |}).
Proof.
  unfold TldvApi.new, TldvConfigSchema_parse. split.
  - intros [-> | ->]; eexists; reflexivity.
  - intros key -> Hkey. destruct key as [| c key]; [contradiction |]. reflexivity.
Qed.

Lemma new_requires_credential_witness :
  (exists zodError,
      TldvApi.new {| TldvConfig.apiKey := Some "" |} =
      {| effects := []; settled := Rejected zodError |})
  /\ TldvApi.new {| TldvConfig.apiKey := Some "key" |} =
     {| effects := []; settled := Fulfilled sample_api |}.
Proof.
  split.
  - apply (proj1 (new_requires_credential {| TldvConfig.apiKey := Some "" |})).
    right. reflexivity.
  - apply (proj2 (new_requires_credential {| TldvConfig.apiKey := Some "key" |}) "key").
    + reflexivity.
    + discriminate.
Defined.

(** *** The query string of [getMeetings] *)

Lemma request_first_call self net endpoint retryCount maxRetries :
  hd_error (effects (request self net endpoint retryCount maxRetries))
  = Some (http self endpoint).
Proof.
  rewrite request_eq.
  destruct (try_block (net retryCount)) as [error | envelope]; [| reflexivity].
  destruct (shouldRetry retryCount maxRetries error); reflexivity.
Qed.

(** C7.  [getMeetings({})] appends the one parameter [limit=50] and asks for
    [/meetings?limit=50]; [getMeetings({page: 2, limit: 10})] appends [page=2]
    and [limit=10], and nothing else, and asks for [/meetings?page=2&limit=10]. *)
Theorem getMeetings_query_string self net :
  (exists validatedParams,
      GetMeetingsParamsSchema_parse no_params = inr validatedParams
      /\ queryParams validatedParams = [("limit", "50")])
  /\ getMeetings self net no_params
     = request self net "/meetings?limit=50" 0 MAX_RETRIES
  /\ hd_error (effects (getMeetings self net no_params))
     = Some (HttpCall (baseUrl self ++ "/meetings?limit=50") (headers self))
  /\ (exists validatedParams,
         GetMeetingsParamsSchema_parse page_2_limit_10 = inr validatedParams
         /\ queryParams validatedParams = [("page", "2"); ("limit", "10")])
  /\ getMeetings self net page_2_limit_10
     = request self net "/meetings?page=2&limit=10" 0 MAX_RETRIES
  /\ hd_error (effects (getMeetings self net page_2_limit_10))
     = Some (HttpCall (baseUrl self ++ "/meetings?page=2&limit=10") (headers self)).
Proof.
  assert (H50 : getMeetings self net no_params
                = request self net "/meetings?limit=50" 0 MAX_RETRIES) by reflexivity.
  assert (H210 : getMeetings self net page_2_limit_10
                 = request self net "/meetings?page=2&limit=10" 0 MAX_RETRIES)
    by reflexivity.
  split; [eexists; split; reflexivity |].
  split; [exact H50 |].
  split; [rewrite H50; apply request_first_call |].
  split; [eexists; split; reflexivity |].
  split; [exact H210 |].
  rewrite H210. apply request_first_call.
Qed.

(** *** The adapter *)

Lemma bind_ret {A B} (m : Async A) (f : A -> B) :
  settled (x <- m ;; ret (f x)) = map_settled f (settled m)
  /\ effects (x <- m ;; ret (f x)) = effects m.
Proof.
  unfold bind. destruct (settled m); cbn; rewrite ?app_nil_r; split; reflexivity.
Qed.

(** C8.  Whatever the tool and its input, the handler makes the events of the
    client operation it stands for and no other, and settles as that
    operation does: an envelope it returns, whatever is in it, becomes the one
    text item holding its serialization; the handler never reads the
    envelope.  When the input parses the operation does return an envelope,
    so the handler returns that text. *)
Theorem handlers_serialize_envelope (JSON_stringify : value -> string)
    tldvApi net call :
  settled (handle JSON_stringify tldvApi net call)
  = map_settled
      (fun envelope =>
         {| Server.content :=
              [ {| Server.type := "text";
                   Server.text := JSON_stringify envelope |} ] |})
      (settled (run tldvApi net (delegate call)))
  /\ effects (handle JSON_stringify tldvApi net call)
     = effects (run tldvApi net (delegate call))
  /\ match endpoint_of (delegate call) with
     | inr _ =>
         exists envelope,
           settled (run tldvApi net (delegate call)) = Fulfilled envelope
           /\ settled (handle JSON_stringify tldvApi net call)
              = Fulfilled
                  {| Server.content :=
                       [ {| Server.type := "text";
                            Server.text := JSON_stringify envelope |} ] |}
     | inl zodError =>
         settled (handle JSON_stringify tldvApi net call) = Rejected zodError
     end.
Proof.
  assert (Hmap : settled (handle JSON_stringify tldvApi net call)
                 = map_settled (Server.text_content JSON_stringify)
                     (settled (run tldvApi net (delegate call)))
                 /\ effects (handle JSON_stringify tldvApi net call)
                    = effects (run tldvApi net (delegate call))).
  { destruct call as [id | meetingId | input | meetingId]; cbn [handle delegate run].
    - apply (bind_ret (getMeeting tldvApi net id)).
    - apply (bind_ret (getTranscript tldvApi net meetingId)).
    - apply (bind_ret (getMeetings tldvApi net input)).
    - apply (bind_ret (getHighlights tldvApi net meetingId)). }
  destruct Hmap as [Hsettled Heffects].
  split; [exact Hsettled |]. split; [exact Heffects |].
  destruct (endpoint_of (delegate call)) as [zodError | endpoint] eqn:Hop.
  - rewrite Hsettled, (run_rejected _ _ _ _ Hop). reflexivity.
  - rewrite Hsettled, (run_request _ _ _ _ Hop).
    destruct (request_fulfilled tldvApi net endpoint 0 MAX_RETRIES) as [envelope ->].
    exists envelope. split; reflexivity.
Qed.

(** *** Which parameters reach the query string *)










(** ** Further properties of the client *)

(** *** The shape of an operation's events *)

Lemma retried_bound net k : retried net k = true -> (k < MAX_RETRIES)%nat.
Proof.
  unfold retried. destruct (try_block (net k)); [| discriminate].
  unfold shouldRetry. intros H. apply andb_prop in H. destruct H as [H _].
  apply Nat.ltb_lt in H. exact H.
Qed.

Lemma request_last self net endpoint k :
  retried net k = false ->
  effects (request self net endpoint k MAX_RETRIES) = [http self endpoint].
Proof.
  unfold retried. intros H. rewrite request_eq.
  destruct (try_block (net k)) as [error | envelope]; [| reflexivity].
  rewrite H. reflexivity.
Qed.

(** The last attempt of an operation: the first one that is not retried. *)
Lemma last_attempt net :
  exists k, (k <= MAX_RETRIES)%nat
            /\ retried_before net k = true /\ retried net k = false.
Proof.
  assert (H3 : retried net 3 = false).
  { destruct (retried net 3) eqn:H; [| reflexivity].
    apply retried_bound in H. unfold MAX_RETRIES in H. lia. }
  unfold MAX_RETRIES.
  destruct (retried net 0) eqn:H0; [| exists 0%nat; repeat split; [lia | assumption]].
  destruct (retried net 1) eqn:H1;
    [| exists 1%nat; repeat split; [lia | cbn; rewrite H0; reflexivity | assumption]].
  destruct (retried net 2) eqn:H2;
    [| exists 2%nat; repeat split;
       [lia | cbn; rewrite H0, H1; reflexivity | assumption]].
  exists 3%nat. repeat split; [lia | cbn; rewrite H0, H1, H2; reflexivity | assumption].
Qed.

Lemma run_trace self net op endpoint :
  endpoint_of op = inr endpoint ->
  exists k, (k <= MAX_RETRIES)%nat
            /\ retried_before net k = true
            /\ retried net k = false
            /\ effects (run self net op)
               = (backoff self endpoint k ++ [http self endpoint])%list.
Proof.
  intros Hop. destruct (last_attempt net) as [k [Hk [Hbefore Hlast]]].
  exists k. repeat split; try assumption.
  rewrite (run_at _ _ _ _ _ Hop Hbefore). cbn [effects].
  rewrite (request_last _ _ _ _ Hlast). reflexivity.
Qed.

(** X1.  The events of an operation whose parameters parse are, for some [k]
    of at most 3, the [k] retried attempts, each an HTTP call followed by its
    wait, and then one last HTTP call: the operation never ends on a wait and
    never waits before its first call. *)
Theorem operation_events_shape self net op endpoint :
  endpoint_of op = inr endpoint ->
  exists k, (k <= 3)%nat
            /\ effects (run self net op)
               = (flat_map (fun i => [http self endpoint; Wait (delay i)]) (seq 0 k)
                  ++ [http self endpoint])%list.
Proof.
  intros Hop. destruct (run_trace self net op endpoint Hop) as [k [Hk [_ [_ H]]]].
  exists k. split; [exact Hk | exact H].
Qed.

Lemma operation_events_shape_witness :
  exists k, (k <= 3)%nat
            /\ effects (run sample_api (always (status_failure 503 VNull))
                          (GetMeeting "m1"))
               = (flat_map (fun i => [http sample_api "/meetings/m1"; Wait (delay i)])
                    (seq 0 k)
                  ++ [http sample_api "/meetings/m1"])%list.
Proof.
  apply (operation_events_shape sample_api (always (status_failure 503 VNull))
           (GetMeeting "m1") "/meetings/m1" eq_refl).
Defined.

(** *** How many calls, how long a wait *)

Lemma request_call_bound self net endpoint retryCount maxRetries :
  (http_calls (effects (request self net endpoint retryCount maxRetries))
   <= S (maxRetries - retryCount))%nat.
Proof.
  funelim (request self net endpoint retryCount maxRetries).
  - cbn. lia.
  - match goal with IH : unit -> (_ <= _)%nat |- _ => specialize (IH tt) end.
    match goal with
    | H : shouldRetry _ _ _ = true |- _ => pose proof H as Hretry
    end.
    unfold shouldRetry in Hretry. apply andb_prop in Hretry.
    destruct Hretry as [Hlt _]. apply Nat.ltb_lt in Hlt.
    cbn. lia.
  - cbn. lia.
Qed.

(** X2.  [request] makes at most [maxRetries - retryCount + 1] HTTP calls,
    whatever the network does; an operation makes at least one call and at
    most four, and waits once between two calls. *)
Theorem operation_call_bound self net op endpoint :
  endpoint_of op = inr endpoint ->
  (forall retryCount maxRetries,
      (http_calls (effects (request self net endpoint retryCount maxRetries))
       <= S (maxRetries - retryCount))%nat)
  /\ (1 <= http_calls (effects (run self net op)) <= 4)%nat
  /\ S (length (waits (effects (run self net op))))
     = http_calls (effects (run self net op)).
Proof.
  intros Hop. split; [intros; apply request_call_bound |].
  destruct (run_trace self net op endpoint Hop) as [k [Hk [_ [_ ->]]]].
  unfold MAX_RETRIES in Hk.
  rewrite http_calls_app, http_calls_backoff, waits_app, waits_backoff,
    length_app, length_map, length_seq. cbn. lia.
Qed.

Lemma operation_call_bound_witness :
  (1 <= http_calls (effects (run sample_api (always (status_failure 429 VNull))
                               HealthCheck)) <= 4)%nat.
Proof.
  apply (operation_call_bound sample_api (always (status_failure 429 VNull))
           HealthCheck "/health" eq_refl).
Defined.

(** X3.  The waits of an operation are the first ones of 1000, 2000 and 2000
    milliseconds, as many as it retried: it never waits more than 5000
    milliseconds in all. *)
Theorem operation_wait_bound self net op endpoint :
  endpoint_of op = inr endpoint ->
  (exists k, waits (effects (run self net op)) = firstn k [1000; 2000; 2000])
  /\ 0 <= total_wait (effects (run self net op)) <= 5000.
Proof.
  intros Hop.
  destruct (run_trace self net op endpoint Hop) as [k [Hk [_ [_ Heff]]]].
  unfold MAX_RETRIES in Hk. unfold total_wait. rewrite Heff.
  rewrite waits_app, waits_backoff. cbn [waits]. rewrite app_nil_r.
  assert (Hk' : k = 0%nat \/ k = 1%nat \/ k = 2%nat \/ k = 3%nat) by lia.
  destruct Hk' as [-> | [-> | [-> | ->]]];
    (split; [ first [ now exists 0%nat | now exists 1%nat
                    | now exists 2%nat | now exists 3%nat ]
            | cbn; lia ]).
Qed.

Lemma operation_wait_bound_witness :
  0 <= total_wait (effects (run sample_api (always (status_failure 500 VNull))
                              (GetTranscript "m1"))) <= 5000.
Proof.
  apply (operation_wait_bound sample_api (always (status_failure 500 VNull))
           (GetTranscript "m1") "/meetings/m1/transcript" eq_refl).
Defined.

(** *** What an operation gives back *)

Lemma try_block_envelope outcome envelope :
  try_block outcome = inr envelope -> has_property "data" envelope = true.
Proof.
  unfold try_block. destruct outcome as [r | error]; [| discriminate].
  destruct (status r >? 200).
  - destruct (get (data r) "message"); discriminate.
  - destruct (truthy (data r) && typeof_object (data r)
              && has_property "data" (data r)) eqn:Hpass;
      intros H; injection H as <-; [| reflexivity].
    apply andb_prop in Hpass. destruct Hpass as [_ Hdata]. exact Hdata.
Qed.

Lemma request_envelope self net endpoint retryCount maxRetries envelope :
  settled (request self net endpoint retryCount maxRetries) = Fulfilled envelope ->
  has_property "data" envelope = true.
Proof.
  revert envelope.
  funelim (request self net endpoint retryCount maxRetries); cbn; intros result Hs.
  - injection Hs as <-.
    match goal with Ht : try_block _ = _ |- _ => apply (try_block_envelope _ _ Ht) end.
  - match goal with IH : unit -> forall _, _ |- _ => apply (IH tt _ Hs) end.
  - injection Hs as <-. reflexivity.
Qed.

(** X4.  Whatever an operation returns is an object with a [data] property:
    a caller can always read [envelope.data]. *)
Theorem envelope_has_data self net op envelope :
  settled (run self net op) = Fulfilled envelope ->
  exists props, envelope = VObj props /\ has_key "data" props = true.
Proof.
  intros H. apply has_property_object.
  destruct (endpoint_of op) as [issues | endpoint] eqn:Hop.
  - rewrite (run_rejected _ _ _ _ Hop) in H. discriminate H.
  - rewrite (run_request _ _ _ _ Hop) in H.
    apply (request_envelope _ _ _ _ _ _ H).
Qed.

Lemma envelope_has_data_witness :
  exists props,
    VObj [("data", VNull); ("error", VStr "Request failed with status code 404")]
    = VObj props
    /\ has_key "data" props = true.
Proof.
  apply (envelope_has_data sample_api (always (status_failure 404 VNull)) HealthCheck).
  reflexivity.
Defined.

(** X5.  The promise of an operation is rejected exactly when the operation
    is [getMeetings] and its parameters do not parse; the rejection carries
    the issues of the parse and comes before any HTTP call.  The other four
    operations always return an envelope. *)
Theorem rejects_only_invalid_parameters self net op issues :
  (settled (run self net op) = Rejected issues <->
   exists params,
     op = GetMeetings params /\ GetMeetingsParamsSchema_parse params = inl issues)
  /\ (settled (run self net op) = Rejected issues -> effects (run self net op) = []).
Proof.
  assert (Hcases : settled (run self net op) = Rejected issues ->
                   endpoint_of op = inl issues).
  { destruct (endpoint_of op) as [issues' | endpoint] eqn:Hop.
    - rewrite (run_rejected _ _ _ _ Hop). cbn. intros H. injection H as <-. reflexivity.
    - rewrite (run_request _ _ _ _ Hop).
      destruct (request_fulfilled self net endpoint 0 MAX_RETRIES) as [envelope ->].
      discriminate. }
  split; [split |].
  - intros H. apply Hcases in H.
    destruct op as [id | params | id | id | ]; cbn in H; try discriminate H.
    exists params. split; [reflexivity |].
    destruct (GetMeetingsParamsSchema_parse params);
      [injection H as ->; reflexivity | discriminate H].
  - intros [params [-> Hparse]]. cbn. unfold getMeetings. rewrite Hparse. reflexivity.
  - intros H. apply Hcases in H. rewrite (run_rejected _ _ _ _ H). reflexivity.
Qed.

(** *** What every call carries *)

Lemma in_backoff self endpoint n ev :
  In ev (backoff self endpoint n) ->
  ev = http self endpoint \/ exists i, ev = Wait (delay i).
Proof.
  unfold backoff. rewrite in_flat_map. intros [i [_ [<- | [<- | []]]]].
  - left. reflexivity.
  - right. exists i. reflexivity.
Qed.

(** X6.  Every HTTP call of an operation on a client that the constructor
    built goes to the base URL followed by the endpoint of the operation, and
    carries the two headers [x-api-key], with the key of the configuration,
    and [Content-Type: application/json]. *)
Theorem calls_carry_credential config api net op url hs :
  settled (TldvApi.new config) = Fulfilled api ->
  In (HttpCall url hs) (effects (run api net op)) ->
  (exists key,
      TldvConfig.apiKey config = Some key
      /\ hs = [("x-api-key", key); ("Content-Type", "application/json")])
  /\ (exists endpoint,
         endpoint_of op = inr endpoint
         /\ url = "https://pasta.tldv.io/v1alpha1" ++ endpoint).
Proof.
  intros Hnew Hin.
  assert (Hapi : exists key, TldvConfig.apiKey config = Some key
                             /\ headers api = [("x-api-key", key);
                                               ("Content-Type", "application/json")]
                             /\ baseUrl api = BASE_URL).
  { unfold TldvApi.new, TldvConfigSchema_parse in Hnew.
    destruct (TldvConfig.apiKey config) as [key |]; [| discriminate Hnew].
    destruct (1 <=? String.length key)%nat; [| discriminate Hnew].
    cbn in Hnew. injection Hnew as <-. exists key. repeat split. }
  destruct Hapi as [key [Hkey [Hheaders Hbase]]].
  destruct (endpoint_of op) as [issues | endpoint] eqn:Hop.
  - rewrite (run_rejected _ _ _ _ Hop) in Hin. destruct Hin.
  - destruct (run_trace api net op endpoint Hop) as [k [_ [_ [_ Heff]]]].
    rewrite Heff in Hin. apply in_app_or in Hin.
    assert (Hev : HttpCall url hs = http api endpoint).
    { destruct Hin as [Hin | [Hin | []]].
      - apply in_backoff in Hin. destruct Hin as [Hin | [i Hin]];
          [exact Hin | discriminate Hin].
      - symmetry. exact Hin. }
    unfold http in Hev. injection Hev as -> ->.
    split.
    + exists key. split; assumption.
    + exists endpoint. split; [reflexivity |]. rewrite Hbase. reflexivity.
Qed.

Lemma calls_carry_credential_witness :
  (exists key,
      Some "key" = Some key
      /\ [("x-api-key", "key"); ("Content-Type", "application/json")]
         = [("x-api-key", key); ("Content-Type", "application/json")])
  /\ (exists endpoint,
         endpoint_of (GetHighlights "m1") = inr endpoint
         /\ "https://pasta.tldv.io/v1alpha1/meetings/m1/highlights"
            = "https://pasta.tldv.io/v1alpha1" ++ endpoint).
Proof.
  apply (calls_carry_credential {| TldvConfig.apiKey := Some "key" |} sample_api
           (always (Resolves {| status := 200; data := VArr [] |}))
           (GetHighlights "m1")
           "https://pasta.tldv.io/v1alpha1/meetings/m1/highlights"
           [("x-api-key", "key"); ("Content-Type", "application/json")]
           eq_refl).
  left. reflexivity.
Defined.

(** *** The end of the retries *)

(** X7.  After three retried attempts the fourth one is the last, whatever
    it brings: a failure is returned as its error envelope even when it is
    one that would be retried, and the operation has made four calls and
    waited 1000, 2000 and 2000 milliseconds. *)
Theorem fourth_attempt_is_final self net op endpoint :
  endpoint_of op = inr endpoint ->
  retried_before net 3 = true ->
  run self net op =
  {| effects := [http self endpoint; Wait 1000;
                 http self endpoint; Wait 2000;
                 http self endpoint; Wait 2000;
                 http self endpoint];
     settled := Fulfilled (match try_block (net 3%nat) with
                           | inl error => error_envelope error
                           | inr envelope => envelope
                           end) |}.
Proof.
  intros Hop Hbefore.
  destruct (try_block (net 3%nat)) as [error | envelope] eqn:Htry.
  - apply (run_gives_up _ _ _ _ _ _ Hop Hbefore Htry). reflexivity.
  - apply (run_returns _ _ _ _ _ _ Hop Hbefore Htry).
Qed.

Lemma fourth_attempt_is_final_witness :
  settled (run sample_api (always (Throws (AxiosError "Network Error" None)))
             HealthCheck)
  = Fulfilled (VObj [("data", VNull); ("error", VStr "Network Error")]).
Proof.
  exact (f_equal settled
           (fourth_attempt_is_final sample_api
              (always (Throws (AxiosError "Network Error" None)))
              HealthCheck "/health" eq_refl eq_refl)).
Defined.

(** *** Which failures are retried *)

(** X22.  When [axios] throws an error that carries the response of the
    server and whose message does not contain "Network Error", the status of
    that response decides: one more HTTP call follows attempt [n] exactly
    when [n] is below 3 and the status is 500 or above, or is 429.  With any
    other status (a 404, say) the operation ends there and returns
    [{data: null, error: message}]. *)
Theorem status_decides_retry self net op endpoint n message r :
  endpoint_of op = inr endpoint ->
  retried_before net n = true ->
  net n = Throws (AxiosError message (Some r)) ->
  includes message "Network Error" = false ->
  ((S n < http_calls (effects (run self net op)))%nat <->
   (n < 3)%nat /\ (500 <= status r \/ status r = 429))
  /\ (~ ((n < 3)%nat /\ (500 <= status r \/ status r = 429)) ->
      run self net op =
      {| effects := backoff self endpoint n ++ [http self endpoint];
         settled := Fulfilled (VObj [("data", VNull); ("error", VStr message)]) |}).
Proof.
  intros Hop Hbefore Hnet Hmessage.
  assert (Htry : try_block (net n) = inl (AxiosError message (Some r)))
    by (rewrite Hnet; reflexivity).
  assert (Hretry : shouldRetry n MAX_RETRIES (AxiosError message (Some r)) = true <->
                   (n < 3)%nat /\ (500 <= status r \/ status r = 429)).
  { unfold shouldRetry, network_error, server_error, rate_limited.
    rewrite Hmessage. cbn [orb].
    rewrite andb_true_iff, orb_true_iff, Nat.ltb_lt, Z.leb_le, Z.eqb_eq.
    unfold MAX_RETRIES. tauto. }
  destruct (retry_observed self net op endpoint n _ Hop Hbefore Htry) as [Hcalls Hstop].
  split; [rewrite Hcalls; exact Hretry |].
  intros Hno. apply Hstop.
  destruct (shouldRetry n MAX_RETRIES (AxiosError message (Some r)));
    [exfalso; apply Hno, Hretry; reflexivity | reflexivity].
Qed.

(** A 404 on the first attempt: the answer is the error envelope, after one
    HTTP call and no wait. *)
Lemma status_decides_retry_witness :
  run sample_api (always (status_failure 404 VNull)) HealthCheck =
  {| effects := [http sample_api "/health"];
     settled :=
       Fulfilled (VObj [("data", VNull);
                        ("error", VStr "Request failed with status code 404")]) |}.
Proof.
  apply (proj2 (status_decides_retry sample_api (always (status_failure 404 VNull))
                  HealthCheck "/health" 0 "Request failed with status code 404"
                  {| status := 404; data := VNull |}
                  eq_refl eq_refl eq_refl eq_refl)).
  cbn. lia.
Defined.

(** *** Failures that are not errors of [axios] *)

(** X8.  A thrown value that is no [Error] is never taken for a network
    error, but [axios.isAxiosError] looks at its shape only: one more HTTP
    call follows attempt [n] exactly when [n] is below 3 and the value passes
    that test with a response whose status is 500 or above, or is 429.
    Otherwise the operation ends there, and what it returns is
    [{data: null, error: "Unknown error occurred"}]. *)
Theorem thrown_non_error_retry self net op endpoint n isAxiosError response :
  endpoint_of op = inr endpoint ->
  retried_before net n = true ->
  net n = Throws (NotAnError isAxiosError response) ->
  ((S n < http_calls (effects (run self net op)))%nat <->
   (n < 3)%nat /\ isAxiosError = true
   /\ exists r, response = Some r /\ (500 <= status r \/ status r = 429))
  /\ (~ ((n < 3)%nat /\ isAxiosError = true
         /\ exists r, response = Some r /\ (500 <= status r \/ status r = 429)) ->
      run self net op =
      {| effects := backoff self endpoint n ++ [http self endpoint];
         settled := Fulfilled (VObj [("data", VNull);
                                     ("error", VStr "Unknown error occurred")]) |}).
Proof.
  intros Hop Hbefore Hnet.
  assert (Htry : try_block (net n) = inl (NotAnError isAxiosError response))
    by (rewrite Hnet; reflexivity).
  assert (Hretry : shouldRetry n MAX_RETRIES (NotAnError isAxiosError response) = true <->
                   (n < 3)%nat /\ isAxiosError = true
                   /\ exists r, response = Some r /\ (500 <= status r \/ status r = 429)).
  { unfold shouldRetry, network_error, server_error, rate_limited. cbn [orb].
    rewrite andb_true_iff, Nat.ltb_lt. unfold MAX_RETRIES.
    destruct isAxiosError, response as [r |].
    - rewrite orb_true_iff, Z.leb_le, Z.eqb_eq. split.
      + intros [Hn Hs]. repeat split; [exact Hn |]. exists r. split; [reflexivity | exact Hs].
      + intros [Hn [_ [r' [Hr Hs]]]]. injection Hr as <-. split; assumption.
    - split; [intros [_ H]; discriminate H | intros [_ [_ [r [H _]]]]; discriminate H].
    - split; [intros [_ H]; discriminate H | intros [_ [H _]]; discriminate H].
    - split; [intros [_ H]; discriminate H | intros [_ [H _]]; discriminate H]. }
  destruct (retry_observed self net op endpoint n _ Hop Hbefore Htry) as [Hcalls Hstop].
  split; [rewrite Hcalls; exact Hretry |].
  intros Hno. apply Hstop.
  destruct (shouldRetry n MAX_RETRIES (NotAnError isAxiosError response));
    [exfalso; apply Hno, Hretry; reflexivity | reflexivity].
Qed.

(** A thrown object that has the shape of an axios error and a 503: it is
    retried. *)
Lemma thrown_non_error_retry_witness :
  (1 < http_calls
         (effects (run sample_api
                     (always (Throws (NotAnError true
                                        (Some {| status := 503; data := VNull |}))))
                     HealthCheck)))%nat.
Proof.
  apply (proj1 (thrown_non_error_retry sample_api
                  (always (Throws (NotAnError true
                                     (Some {| status := 503; data := VNull |}))))
                  HealthCheck "/health" 0 true
                  (Some {| status := 503; data := VNull |})
                  eq_refl eq_refl eq_refl)).
  split; [lia |]. split; [reflexivity |].
  exists {| status := 503; data := VNull |}. split; [reflexivity |]. left. cbn. lia.
Defined.

(** X9.  A response with a status above 200 and a null body does not give
    the generic text: reading [message] of null throws inside the [try], and
    the operation returns at once with the message of that TypeError. *)
Theorem failure_status_null_body self net op endpoint n r :
  endpoint_of op = inr endpoint ->
  retried_before net n = true ->
  net n = Resolves r ->
  status r > 200 ->
  data r = VNull ->
  run self net op =
  {| effects := backoff self endpoint n ++ [http self endpoint];
     settled :=
       Fulfilled (VObj [("data", VNull);
                        ("error",
                         VStr "Cannot read properties of null (reading 'message')")]) |}.
Proof.
  intros Hop Hbefore Hnet Hstatus Hnull.
  assert (Htry : try_block (net n)
                 = inl (JsError "Cannot read properties of null (reading 'message')")).
  { rewrite Hnet. unfold try_block.
    destruct (Z.gtb_spec (status r) 200) as [_ | Hle]; [| lia].
    rewrite Hnull. reflexivity. }
  apply (run_gives_up _ _ _ _ _ _ Hop Hbefore Htry).
  unfold shouldRetry. cbn. apply andb_false_r.
Qed.

Lemma failure_status_null_body_witness :
  run sample_api (always (Resolves {| status := 204; data := VNull |}))
    (GetMeeting "m1")
  = {| effects := [http sample_api "/meetings/m1"];
       settled :=
         Fulfilled (VObj [("data", VNull);
                          ("error",
                           VStr "Cannot read properties of null (reading 'message')")]) |}.
Proof.
  apply (failure_status_null_body sample_api
           (always (Resolves {| status := 204; data := VNull |}))
           (GetMeeting "m1") "/meetings/m1" 0 {| status := 204; data := VNull |}
           eq_refl eq_refl eq_refl eq_refl eq_refl).
Defined.

(** *** How much of the network an operation looks at *)

Lemma request_agrees self net net' endpoint maxRetries d :
  forall retryCount,
    (retryCount + d = maxRetries)%nat ->
    (forall k, (retryCount <= k <= maxRetries)%nat -> net k = net' k) ->
    request self net endpoint retryCount maxRetries
    = request self net' endpoint retryCount maxRetries.
Proof.
  induction d as [| d IH]; intros retryCount Hd Hsame;
    rewrite (request_eq self net), (request_eq self net');
    rewrite <- (Hsame retryCount) by lia;
    destruct (try_block (net retryCount)) as [error | envelope]; try reflexivity.
  - unfold shouldRetry.
    destruct (Nat.ltb_spec retryCount maxRetries); [lia | reflexivity].
  - destruct (shouldRetry retryCount maxRetries error); [| reflexivity].
    rewrite (IH (S retryCount)); [reflexivity | lia |].
    intros k Hk. apply Hsame. lia.
Qed.

(** X10.  An operation looks at the outcomes of its first four attempts and
    at nothing else: two networks that agree on the attempts 0 to 3 give the
    same events and the same result. *)
Theorem operation_reads_four_attempts self net net' op :
  (forall k, (k <= 3)%nat -> net k = net' k) ->
  run self net op = run self net' op.
Proof.
  intros Hsame.
  destruct (endpoint_of op) as [issues | endpoint] eqn:Hop.
  - rewrite !(run_rejected _ _ _ _ Hop). reflexivity.
  - rewrite !(run_request _ _ _ _ Hop).
    apply (request_agrees self net net' endpoint MAX_RETRIES 3 0%nat eq_refl).
    intros k Hk. apply Hsame. unfold MAX_RETRIES in Hk. lia.
Qed.

Lemma operation_reads_four_attempts_witness :
  run sample_api
    (answers [status_failure 503 VNull; status_failure 503 VNull;
              status_failure 503 VNull; status_failure 503 VNull]
       (Resolves {| status := 200; data := VStr "late" |}))
    HealthCheck
  = run sample_api (always (status_failure 503 VNull)) HealthCheck.
Proof.
  apply (operation_reads_four_attempts sample_api
           (answers [status_failure 503 VNull; status_failure 503 VNull;
                     status_failure 503 VNull; status_failure 503 VNull]
              (Resolves {| status := 200; data := VStr "late" |}))
           (always (status_failure 503 VNull)) HealthCheck).
  intros k Hk.
  destruct k as [| [| [| [| k]]]]; [reflexivity | reflexivity | reflexivity
                                    | reflexivity | lia].
Defined.

(** ** Further properties of the parameters of [getMeetings] *)

(** *** What the schema accepts *)

Lemma check_positive_nil field v :
  check_positive field v = [] <-> positive_integer v = true.
Proof.
  unfold check_positive, positive_integer.
  destruct v as [[z | negative text | negative |] |]; cbn;
    try (split; [discriminate | discriminate]); try tauto.
  - destruct (Z.leb_spec z 0), (Z.ltb_spec 0 z); try lia;
      split; try discriminate; reflexivity.
Qed.

Lemma check_positive_paths field v :
  Forall (fun issue => path issue = field) (check_positive field v).
Proof.
  unfold check_positive.
  destruct v as [[z | negative text | negative |] |]; cbn;
    try destruct (z <=? 0); try destruct negative; repeat constructor.
Qed.

Lemma check_datetime_nil field v :
  check_datetime field v = [] <->
  match v with Some s => datetime s | None => true end = true.
Proof.
  unfold check_datetime. destruct v as [s |]; [| tauto].
  destruct (datetime s); split; try discriminate; reflexivity.
Qed.

Lemma check_datetime_paths field v :
  Forall (fun issue => path issue = field) (check_datetime field v).
Proof.
  unfold check_datetime. destruct v as [s |]; [destruct (datetime s) |];
    repeat constructor.
Qed.

Lemma check_meetingType_nil v :
  check_meetingType v = [] <->
  match v with
  | Some s => ((s =? "internal") || (s =? "external"))%string
  | None => true
  end = true.
Proof.
  unfold check_meetingType. destruct v as [s |]; [| tauto].
  destruct ((s =? "internal") || (s =? "external"))%string;
    split; try discriminate; reflexivity.
Qed.

Lemma check_meetingType_paths v :
  Forall (fun issue => path issue = "meetingType") (check_meetingType v).
Proof.
  unfold check_meetingType. destruct v as [s |];
    [destruct ((s =? "internal") || (s =? "external"))%string |];
    repeat constructor.
Qed.

Lemma issues_nil params :
  (check_positive "page" (page params)
   ++ check_positive "limit" (limit params)
   ++ check_datetime "from" (from params)
   ++ check_datetime "to" (to params)
   ++ check_meetingType (meetingType params))%list = [] <->
  well_formed params = true.
Proof.
  unfold well_formed. rewrite !andb_true_iff.
  rewrite <- !check_positive_nil, <- !check_datetime_nil, <- check_meetingType_nil.
  split.
  - intros H.
    apply app_eq_nil in H. destruct H as [H1 H].
    apply app_eq_nil in H. destruct H as [H2 H].
    apply app_eq_nil in H. destruct H as [H3 H].
    apply app_eq_nil in H. destruct H as [H4 H5].
    repeat split; eassumption.
  - intros [[[[H1 H2] H3] H4] H5]. rewrite H1, H2, H3, H4, H5. reflexivity.
Qed.

Lemma parse_accepts params :
  well_formed params = true ->
  GetMeetingsParamsSchema_parse params = inr (with_default_limit params).
Proof.
  intros H. apply issues_nil in H.
  unfold GetMeetingsParamsSchema_parse. rewrite H. reflexivity.
Qed.

Lemma parse_accepted params validatedParams :
  GetMeetingsParamsSchema_parse params = inr validatedParams ->
  well_formed params = true /\ validatedParams = with_default_limit params.
Proof.
  unfold GetMeetingsParamsSchema_parse. rewrite <- issues_nil.
  destruct (check_positive "page" (page params)
            ++ check_positive "limit" (limit params)
            ++ check_datetime "from" (from params)
            ++ check_datetime "to" (to params)
            ++ check_meetingType (meetingType params))%list;
    intros H; [| discriminate H].
  injection H as <-. split; reflexivity.
Qed.

Lemma issues_paths params issues :
  GetMeetingsParamsSchema_parse params = inl issues ->
  issues <> []
  /\ Forall (fun issue => In (path issue) ["page"; "limit"; "from"; "to"; "meetingType"])
       issues.
Proof.
  unfold GetMeetingsParamsSchema_parse.
  assert (Hpaths :
            Forall (fun issue =>
                      In (path issue) ["page"; "limit"; "from"; "to"; "meetingType"])
              (check_positive "page" (page params)
               ++ check_positive "limit" (limit params)
               ++ check_datetime "from" (from params)
               ++ check_datetime "to" (to params)
               ++ check_meetingType (meetingType params))%list).
  { repeat (apply Forall_app; split);
      [ apply (Forall_impl _ (P := fun issue => path issue = "page"));
          [| apply check_positive_paths]
      | apply (Forall_impl _ (P := fun issue => path issue = "limit"));
          [| apply check_positive_paths]
      | apply (Forall_impl _ (P := fun issue => path issue = "from"));
          [| apply check_datetime_paths]
      | apply (Forall_impl _ (P := fun issue => path issue = "to"));
          [| apply check_datetime_paths]
      | apply (Forall_impl _ (P := fun issue => path issue = "meetingType"));
          [| apply check_meetingType_paths] ];
      intros issue ->; cbn; tauto. }
  destruct (check_positive "page" (page params)
            ++ check_positive "limit" (limit params)
            ++ check_datetime "from" (from params)
            ++ check_datetime "to" (to params)
            ++ check_meetingType (meetingType params))%list eqn:Hissues;
    intros H; [discriminate H |].
  injection H as <-. split; [discriminate | exact Hpaths].
Qed.

Lemma positive_integer_some (v : option number) n :
  positive_integer v = true -> v = Some n -> exists z, n = Integer z /\ 0 < z.
Proof.
  intros H ->. unfold positive_integer in H.
  destruct n as [z | | |]; try discriminate H.
  exists z. split; [reflexivity | apply Z.ltb_lt, H].
Qed.

(** X11.  What the parse of the parameters guarantees.  When it fails there
    is at least one issue, and every issue is about [page], [limit], [from],
    [to] or [meetingType]: no [query] and no [onlyParticipated] is ever
    refused.  When it succeeds, [query] and [onlyParticipated] come back as
    they were, a [page] that is set is an integer above 0 (1.5, NaN and
    Infinity are refused), the [limit] is set and is an integer above 0, and
    a [meetingType] that is set is [internal] or [external]. *)
Theorem parse_guarantees params :
  (forall issues,
      GetMeetingsParamsSchema_parse params = inl issues ->
      issues <> []
      /\ Forall (fun issue =>
                   In (path issue) ["page"; "limit"; "from"; "to"; "meetingType"])
           issues)
  /\ (forall validatedParams,
         GetMeetingsParamsSchema_parse params = inr validatedParams ->
         query validatedParams = query params
         /\ onlyParticipated validatedParams = onlyParticipated params
         /\ (forall n, page validatedParams = Some n -> exists z, n = Integer z /\ 0 < z)
         /\ (exists z, limit validatedParams = Some (Integer z) /\ 0 < z)
         /\ (forall m, meetingType validatedParams = Some m ->
                       m = "internal" \/ m = "external")).
Proof.
  split; [intros issues; apply issues_paths |].
  intros validatedParams Hparse.
  apply parse_accepted in Hparse. destruct Hparse as [Hwf ->].
  unfold well_formed in Hwf. rewrite !andb_true_iff in Hwf.
  destruct Hwf as [[[[Hpage Hlimit] _] _] Htype].
  unfold with_default_limit. cbn.
  split; [reflexivity |]. split; [reflexivity |].
  split; [intros n; apply (positive_integer_some _ _ Hpage) |].
  split.
  - destruct (limit params) as [l |] eqn:Hl.
    + destruct (positive_integer_some _ l Hlimit eq_refl) as [z [-> Hz]].
      exists z. split; [reflexivity | exact Hz].
    + exists 50. split; [reflexivity | lia].
  - intros m Hm. rewrite Hm in Htype. apply orb_prop in Htype.
    destruct Htype as [H | H]; apply String.eqb_eq in H; tauto.
Qed.

Lemma well_formed_default params :
  well_formed params = true -> well_formed (with_default_limit params) = true.
Proof.
  unfold well_formed, with_default_limit. cbn.
  destruct (limit params); cbn; [tauto |].
  rewrite !andb_true_r. tauto.
Qed.

(** X12.  Parsing twice changes nothing: parameters that a parse returned
    parse again, to themselves.  The handler of [list-meetings] can so hand
    [getMeetings] an input that was parsed before. *)
Theorem parse_idempotent params validatedParams :
  GetMeetingsParamsSchema_parse params = inr validatedParams ->
  GetMeetingsParamsSchema_parse validatedParams = inr validatedParams.
Proof.
  intros Hparse. apply parse_accepted in Hparse. destruct Hparse as [Hwf ->].
  rewrite (parse_accepts _ (well_formed_default _ Hwf)).
  unfold with_default_limit. cbn. destruct (limit params); reflexivity.
Qed.

Lemma parse_idempotent_witness :
  GetMeetingsParamsSchema_parse (with_default_limit page_2_limit_10)
  = inr (with_default_limit page_2_limit_10).
Proof.
  apply (parse_idempotent page_2_limit_10 (with_default_limit page_2_limit_10)).
  reflexivity.
Defined.

(** *** What reaches the query string *)






(** A limit of 10^21 is printed in exponent form, and its [+] is escaped. *)
Example limit_in_exponent_form :
  Number_toString (10 ^ 21) = "1e+21"
  /\ URLSearchParams.toString [("limit", Number_toString (10 ^ 21))] = "limit=1e%2B21"
  /\ Number_toString (2 ^ 64) = "18446744073709552000".
Proof. repeat split; vm_compute; reflexivity. Qed.




(** ** Further properties of the query-string serializer *)

Lemma N_of_ascii_bound c : (N_of_ascii c < 256)%N.
Proof. apply N_ascii_bounded. Qed.

Lemma hex_digit_code k :
  (k < 16)%N ->
  N_of_ascii (URLSearchParams.hex_digit k)
  = (if (k <? 10)%N then 48 + k else 55 + k)%N.
Proof.
  intros Hk. unfold URLSearchParams.hex_digit.
  apply N_ascii_embedding.
  destruct (N.ltb_spec k 10); lia.
Qed.

Lemma hex_digit_unreserved k :
  (k < 16)%N -> URLSearchParams.unreserved (URLSearchParams.hex_digit k) = true.
Proof.
  intros Hk. unfold URLSearchParams.unreserved. cbv zeta.
  rewrite (hex_digit_code k Hk).
  destruct (N.ltb_spec k 10).
  - assert (H1 : (48 <=? 48 + k)%N = true) by (apply N.leb_le; lia).
    assert (H2 : (48 + k <=? 57)%N = true) by (apply N.leb_le; lia).
    rewrite H1, H2. reflexivity.
  - assert (H1 : (65 <=? 55 + k)%N = true) by (apply N.leb_le; lia).
    assert (H2 : (55 + k <=? 90)%N = true) by (apply N.leb_le; lia).
    rewrite H1, H2. cbn. rewrite orb_true_r. reflexivity.
Qed.

Lemma unreserved_safe c : URLSearchParams.unreserved c = true -> query_safe c = true.
Proof. unfold query_safe. intros ->. reflexivity. Qed.

Lemma percent_encode_safe t :
  all_chars query_safe (URLSearchParams.percent_encode t) = true.
Proof.
  induction t as [| c t IH]; [reflexivity |].
  cbn [URLSearchParams.percent_encode].
  destruct (URLSearchParams.unreserved c) eqn:Hc.
  - cbn. rewrite (unreserved_safe c Hc), IH. reflexivity.
  - destruct (Ascii.eqb c " "); cbn [all_chars]; [rewrite IH; reflexivity |].
    pose proof (N_of_ascii_bound c) as Hb.
    assert (Hhi : query_safe (URLSearchParams.hex_digit (N_of_ascii c / 16)) = true).
    { apply unreserved_safe, hex_digit_unreserved.
      apply N.Div0.div_lt_upper_bound. exact Hb. }
    assert (Hlo : query_safe (URLSearchParams.hex_digit (N_of_ascii c mod 16)) = true).
    { apply unreserved_safe, hex_digit_unreserved. apply N.mod_lt. discriminate. }
    rewrite Hhi, Hlo, IH. reflexivity.
Qed.

Lemma encode_safe_chars s :
  all_chars query_safe (URLSearchParams.encode s) = true
  /\ forall c, query_safe c = false -> count_char c (URLSearchParams.encode s) = 0%nat.
Proof.
  unfold URLSearchParams.encode.
  pose proof (percent_encode_safe (URLSearchParams.to_USVString s)) as Hsafe.
  split; [exact Hsafe |].
  intros c Hc. revert Hsafe.
  generalize (URLSearchParams.percent_encode (URLSearchParams.to_USVString s)) as t.
  intros t. induction t as [| c' t IH]; [reflexivity |].
  cbn. intros H. apply andb_prop in H. destruct H as [Hc' Ht].
  destruct (Ascii.eqb_spec c c') as [-> | _]; [congruence |].
  rewrite (IH Ht). reflexivity.
Qed.

(** X16.  A serialized name or value is made of letters, digits, [*], [-],
    [.], [_], [+] and [%] only: whatever the text, it holds no [&], no [=],
    no [#] and no space, so it stays one component of the query string. *)
Theorem encode_safe s :
  all_chars query_safe (URLSearchParams.encode s) = true
  /\ count_char "&" (URLSearchParams.encode s) = 0%nat
  /\ count_char "=" (URLSearchParams.encode s) = 0%nat
  /\ count_char "#" (URLSearchParams.encode s) = 0%nat
  /\ count_char " " (URLSearchParams.encode s) = 0%nat.
Proof.
  destruct (encode_safe_chars s) as [Hsafe Hcount].
  split; [exact Hsafe |].
  repeat split; apply Hcount; reflexivity.
Qed.

Lemma hex_digit_inj a b :
  (a < 16)%N -> (b < 16)%N ->
  URLSearchParams.hex_digit a = URLSearchParams.hex_digit b -> a = b.
Proof.
  intros Ha Hb H. apply (f_equal N_of_ascii) in H.
  rewrite (hex_digit_code a Ha), (hex_digit_code b Hb) in H.
  destruct (N.ltb_spec a 10), (N.ltb_spec b 10); lia.
Qed.

Lemma unreserved_plus : URLSearchParams.unreserved "+" = false.
Proof. reflexivity. Qed.

Lemma unreserved_percent : URLSearchParams.unreserved "%" = false.
Proof. reflexivity. Qed.

Lemma percent_encode_head_inj c1 s1 c2 s2 :
  URLSearchParams.percent_encode (String c1 s1)
  = URLSearchParams.percent_encode (String c2 s2) ->
  c1 = c2 /\ URLSearchParams.percent_encode s1 = URLSearchParams.percent_encode s2.
Proof.
  cbn [URLSearchParams.percent_encode].
  destruct (URLSearchParams.unreserved c1) eqn:H1,
           (URLSearchParams.unreserved c2) eqn:H2.
  - intros H. injection H as -> H. split; [reflexivity | exact H].
  - destruct (Ascii.eqb c2 " "); intros H; injection H as -> _.
    + rewrite unreserved_plus in H1. discriminate H1.
    + rewrite unreserved_percent in H1. discriminate H1.
  - destruct (Ascii.eqb c1 " "); intros H; injection H as <- _.
    + rewrite unreserved_plus in H2. discriminate H2.
    + rewrite unreserved_percent in H2. discriminate H2.
  - destruct (Ascii.eqb_spec c1 " ") as [-> | _],
             (Ascii.eqb_spec c2 " ") as [-> | _]; intros H.
    + injection H as H. split; [reflexivity | exact H].
    + discriminate H.
    + discriminate H.
    + injection H as Hhi Hlo Hrest. split; [| exact Hrest].
      pose proof (N_of_ascii_bound c1) as Hb1.
      pose proof (N_of_ascii_bound c2) as Hb2.
      apply hex_digit_inj in Hhi;
        [| apply N.Div0.div_lt_upper_bound; assumption
         | apply N.Div0.div_lt_upper_bound; assumption].
      apply hex_digit_inj in Hlo;
        [| apply N.mod_lt; discriminate | apply N.mod_lt; discriminate].
      rewrite <- (ascii_N_embedding c1), <- (ascii_N_embedding c2).
      f_equal.
      rewrite (N.div_mod (N_of_ascii c1) 16), (N.div_mod (N_of_ascii c2) 16)
        by discriminate.
      rewrite Hhi, Hlo. reflexivity.
Qed.

Lemma percent_encode_injective s1 s2 :
  URLSearchParams.percent_encode s1 = URLSearchParams.percent_encode s2 -> s1 = s2.
Proof.
  revert s2. induction s1 as [| c1 s1 IH]; intros [| c2 s2] H.
  - reflexivity.
  - exfalso. cbn [URLSearchParams.percent_encode] in H.
    destruct (URLSearchParams.unreserved c2); [discriminate H |].
    destruct (Ascii.eqb c2 " "); discriminate H.
  - exfalso. cbn [URLSearchParams.percent_encode] in H.
    destruct (URLSearchParams.unreserved c1); [discriminate H |].
    destruct (Ascii.eqb c1 " "); discriminate H.
  - apply percent_encode_head_inj in H. destruct H as [-> H].
    rewrite (IH s2 H). reflexivity.
Qed.

(** X17.  Two names or values serialize to the same text exactly when they
    are the same once every surrogate without a partner is replaced by
    U+FFFD: the serializer loses that and nothing else.  Texts that differ
    in such a surrogate only, as [lone_surrogate_d800] and
    [lone_surrogate_dfff] do, are sent alike. *)
Theorem encode_loses_lone_surrogates_only s1 s2 :
  (URLSearchParams.encode s1 = URLSearchParams.encode s2 <->
   URLSearchParams.to_USVString s1 = URLSearchParams.to_USVString s2)
  /\ lone_surrogate_d800 <> lone_surrogate_dfff
  /\ URLSearchParams.encode lone_surrogate_d800 = "%EF%BF%BD"
  /\ URLSearchParams.encode lone_surrogate_dfff = "%EF%BF%BD".
Proof.
  split.
  - unfold URLSearchParams.encode. split.
    + apply percent_encode_injective.
    + intros ->. reflexivity.
  - split; [discriminate |]. split; reflexivity.
Qed.

Lemma count_char_app c s t :
  count_char c (s ++ t) = (count_char c s + count_char c t)%nat.
Proof.
  induction s as [| c' s IH]; [reflexivity |].
  cbn. rewrite IH. lia.
Qed.

Lemma count_char_pair c nv :
  query_safe c = false ->
  count_char c (URLSearchParams.encode (fst nv) ++ "=" ++ URLSearchParams.encode (snd nv))
  = if Ascii.eqb c "=" then 1%nat else 0%nat.
Proof.
  intros Hc.
  assert (Hzero : forall s, count_char c (URLSearchParams.encode s) = 0%nat).
  { intros s. apply (proj2 (encode_safe_chars s)), Hc. }
  rewrite !count_char_app, !Hzero. cbn. lia.
Qed.

(** X18.  In the query string of [n] parameters there are [n] signs [=] and,
    between the parameters, [n - 1] signs [&]; there is no [?] and no [#].
    No name and no value can add a parameter or end the query. *)
Theorem query_string_separators (q : URLSearchParams.t) :
  count_char "=" (URLSearchParams.toString q) = length q
  /\ count_char "&" (URLSearchParams.toString q) = pred (length q)
  /\ count_char "?" (URLSearchParams.toString q) = 0%nat
  /\ count_char "#" (URLSearchParams.toString q) = 0%nat.
Proof.
  unfold URLSearchParams.toString.
  assert (Hgen : forall c,
             query_safe c = false ->
             count_char c
               (String.concat "&"
                  (map (fun nv => URLSearchParams.encode (fst nv) ++ "="
                                  ++ URLSearchParams.encode (snd nv)) q))
             = ((if Ascii.eqb c "=" then length q else 0)
                + (if Ascii.eqb c "&" then pred (length q) else 0))%nat).
  { intros c Hc. induction q as [| nv q IH].
    - cbn. destruct (Ascii.eqb c "="), (Ascii.eqb c "&"); reflexivity.
    - destruct q as [| nv' q].
      + cbn [map String.concat length pred]. rewrite (count_char_pair c nv Hc).
        destruct (Ascii.eqb c "="), (Ascii.eqb c "&"); reflexivity.
      + change (String.concat "&" (map ?f (nv :: nv' :: q)))
          with (f nv ++ "&" ++ String.concat "&" (map f (nv' :: q))).
        cbv beta. rewrite count_char_app, (count_char_app c "&"), IH.
        rewrite (count_char_pair c nv Hc). cbn [count_char length pred].
        destruct (Ascii.eqb c "="), (Ascii.eqb c "&"); lia. }
  repeat split; rewrite Hgen by reflexivity; cbn; lia.
Qed.

(** ** Further properties of the operations and of the adapter *)

(** X19.  A meeting id is put in the path as it is, with no escaping: the
    first call of [getMeeting(id)] goes to [/meetings/] followed by [id], and
    an id that ends in [/transcript] or [/highlights] makes [getMeeting] do
    what [getTranscript] or [getHighlights] does on the id before it. *)
Theorem meeting_id_verbatim self net meetingId :
  hd_error (effects (run self net (GetMeeting meetingId)))
  = Some (HttpCall (baseUrl self ++ "/meetings/" ++ meetingId) (headers self))
  /\ run self net (GetMeeting (meetingId ++ "/transcript"))
     = run self net (GetTranscript meetingId)
  /\ run self net (GetMeeting (meetingId ++ "/highlights"))
     = run self net (GetHighlights meetingId).
Proof.
  split; [apply request_first_call |].
  split; reflexivity.
Qed.

(** X20.  [getMeetings] on parameters that a parse returned never rejects:
    it asks for [/meetings?] followed by the query string of those very
    parameters and returns an envelope. *)
Theorem getMeetings_validated_input self net params input :
  GetMeetingsParamsSchema_parse params = inr input ->
  getMeetings self net input
  = request self net ("/meetings?" ++ URLSearchParams.toString (queryParams input))
      0 MAX_RETRIES
  /\ exists envelope, settled (getMeetings self net input) = Fulfilled envelope.
Proof.
  intros Hparse. apply parse_accepted in Hparse. destruct Hparse as [Hwf ->].
  assert (Hagain : GetMeetingsParamsSchema_parse (with_default_limit params)
                   = inr (with_default_limit params)).
  { rewrite (parse_accepts _ (well_formed_default _ Hwf)).
    unfold with_default_limit. cbn. destruct (limit params); reflexivity. }
  unfold getMeetings. rewrite Hagain.
  split; [reflexivity | apply request_fulfilled].
Qed.

Lemma getMeetings_validated_input_witness :
  getMeetings sample_api (always (status_failure 404 VNull))
    (with_default_limit page_2_limit_10)
  = request sample_api (always (status_failure 404 VNull))
      "/meetings?page=2&limit=10" 0 MAX_RETRIES.
Proof.
  apply (getMeetings_validated_input sample_api (always (status_failure 404 VNull))
           page_2_limit_10 (with_default_limit page_2_limit_10) eq_refl).
Defined.

Lemma handle_effects (JSON_stringify : value -> string) tldvApi net call :
  effects (handle JSON_stringify tldvApi net call)
  = effects (run tldvApi net (delegate call)).
Proof.
  destruct call as [id | meetingId | input | meetingId]; cbn [handle delegate run].
  - apply (bind_ret (getMeeting tldvApi net id)).
  - apply (bind_ret (getTranscript tldvApi net meetingId)).
  - apply (bind_ret (getMeetings tldvApi net input)).
  - apply (bind_ret (getHighlights tldvApi net meetingId)).
Qed.

(** X21.  Whatever the tool, its input and the network, a tool call makes at
    most four HTTP calls and waits at most 5000 milliseconds in all. *)
Theorem tool_call_bounds (JSON_stringify : value -> string) tldvApi net call :
  (http_calls (effects (handle JSON_stringify tldvApi net call)) <= 4)%nat
  /\ 0 <= total_wait (effects (handle JSON_stringify tldvApi net call)) <= 5000.
Proof.
  rewrite handle_effects.
  destruct (endpoint_of (delegate call)) as [issues | endpoint] eqn:Hop.
  - rewrite (run_rejected _ _ _ _ Hop). cbn. lia.
  - destruct (run_trace tldvApi net (delegate call) endpoint Hop)
      as [k [Hk [_ [_ Heff]]]].
    unfold MAX_RETRIES in Hk. unfold total_wait. rewrite Heff.
    rewrite http_calls_app, http_calls_backoff, waits_app, waits_backoff.
    cbn [waits http_calls http]. rewrite app_nil_r.
    assert (Hk' : k = 0%nat \/ k = 1%nat \/ k = 2%nat \/ k = 3%nat) by lia.
    destruct Hk' as [-> | [-> | [-> | ->]]]; cbn; lia.
Qed.
